(** * Process control and introspection of the QNX remote process monitor

    A shallow embedding of [qnx::utils::ProcessControl]
    (the second half of [src/Authenticator.cpp]) and the properties of it
    that the specification states.

    The code talks to two things outside itself: the kernel's signal
    interface and the process filesystem under [/proc].  Both are read
    through a [World] snapshot; what the code does to them (signals sent,
    files opened, lines written to [std::cerr]) is recorded as a trace of
    [event]s, so that statements such as "no record is read" can be made. *)

From Stdlib Require Import ZArith QArith Ascii String List.
From stdpp Require Import base option list gmap strings pretty.

Local Open Scope string_scope.
Local Open Scope list_scope.
Local Open Scope Z_scope.

(** ** Target platform and system headers *)

(** The source selects code with [#ifdef __QNXNTO__]. *)
Inductive platform := QNXNTO | OtherPlatform.

(** What the code takes from [<signal.h>], [<sys/procfs.h>] and
    [<sys/debug.h>]: signal numbers, the size of the two binary records and
    the members it reads from their object representation. *)
Record sysdefs := {
  SIGSTOP : Z;
  SIGCONT : Z;
  SIGTERM : Z;
  sizeof_debug_process_t : nat;
  pinfo_parent : string → Z;         (* [pinfo.parent] *)
  sizeof_procfs_status : nat;
  pstatus_stksize : string → Z       (* [pstatus.stksize] *)
}.

(** ** The world outside the program *)

(** Outcome of [entry.is_directory()]: the two answers, or the
    [filesystem_error] it throws when the status cannot be obtained. *)
Inductive file_status :=
| is_dir
| not_dir
| status_error (what : string).

Record directory_entry := {
  filename : string;              (* [entry.path().filename().string()] *)
  entry_status : file_status
}.

Record World := {
  (** [SignalKill(0, pid, 0, sig, 0, 0)] resp. [kill(pid, sig)]:
      [None] when the call succeeds, the message of [errno] when it
      returns -1. *)
  kernel_kill : Z → Z → option string;
  (** [std::filesystem::directory_iterator("/proc")]: the entries in the
      order the iterator yields them, or the message of the
      [filesystem_error] it throws. *)
  proc_listing : string + list directory_entry;
  (** Files an [std::ifstream] can open, with their bytes. *)
  fs : gmap string string
}.

(** ** Effects *)

Inductive event :=
| EvSignal (pid sig : Z)          (* a signal system call *)
| EvOpen (path : string)          (* an [std::ifstream] constructed on [path] *)
| EvStderr (line : string).       (* a line written to [std::cerr], without its [std::endl] *)

Inductive exn :=
| std_invalid_argument
| std_out_of_range
| filesystem_error (what : string).

Definition what (e : exn) : string :=
  match e with
  | std_invalid_argument => "stoi: no conversion"
  | std_out_of_range => "stoi: out of range"
  | filesystem_error msg => msg
  end.

(** Code that cannot throw: a value and the trace it leaves. *)
Definition io (A : Type) : Type := list event * A.

Global Instance io_ret : MRet io := λ A a, ([], a).
Global Instance io_bind : MBind io := λ A B k m,
  let '(t1, a) := m in let '(t2, b) := k a in (t1 ++ t2, b).
Definition emit (e : event) : io unit := ([e], tt).

Definition trace {A} (m : io A) : list event := fst m.
Definition result {A} (m : io A) : A := snd m.

(** Code inside a [try] block that updates a local variable of type [S]:
    the trace, the variable as the block leaves it, and the exception in
    flight, if any.  What was stored before a [throw] stays stored. *)
Definition stmt (S : Type) : Type := S → list event * (S * option exn).

Definition skip {S} : stmt S := fun s => ([], (s, None)).
Definition throw {S} (e : exn) : stmt S := fun s => ([], (s, Some e)).
Definition store {S} (f : S → S) : stmt S := fun s => ([], (f s, None)).
Definition run {S A} (m : io A) (k : A → stmt S) : stmt S :=
  fun s => let '(t1, a) := m in let '(t2, r) := k a s in (t1 ++ t2, r).
Definition seq {S} (c1 c2 : stmt S) : stmt S :=
  fun s =>
    let '(t1, (s1, x)) := c1 s in
    match x with
    | Some e => (t1, (s1, Some e))
    | None => let '(t2, r) := c2 s1 in (t1 ++ t2, r)
    end.
Definition try_catch {S} (body : stmt S) (handler : exn → stmt S) : stmt S :=
  fun s =>
    let '(t1, (s1, x)) := body s in
    match x with
    | Some e => let '(t2, r) := handler e s1 in (t1 ++ t2, r)
    | None => (t1, (s1, None))
    end.
(** A range-based [for]; [continue] is the body's normal end. *)
Fixpoint for_each {S A} (l : list A) (body : A → stmt S) : stmt S :=
  match l with
  | [] => skip
  | a :: l' => seq (body a) (for_each l' body)
  end.

(** ** The pieces of the C++ library the code uses *)

Definition NUL : ascii := Ascii.zero.
Definition LF : ascii := "010"%char.

Definition isdigit (c : ascii) : bool :=
  let n := N_of_ascii c in ((48 <=? n) && (n <=? 57))%N.

Definition isspace (c : ascii) : bool :=
  let n := N_of_ascii c in ((n =? 32) || ((9 <=? n) && (n <=? 13)))%N.

Definition digit_value (c : ascii) : Z := Z.of_N (N_of_ascii c) - 48.

(** Value of the longest run of digits [s] starts with. *)
Fixpoint digits_value (acc : Z) (s : string) : Z :=
  match s with
  | String c s' => if isdigit c then digits_value (10 * acc + digit_value c) s' else acc
  | EmptyString => acc
  end.

Fixpoint skip_space (s : string) : string :=
  match s with
  | String c s' => if isspace c then skip_space s' else s
  | EmptyString => s
  end.

Definition INT_MIN : Z := - 2 ^ 31.
Definition INT_MAX : Z := 2 ^ 31 - 1.

(** [std::stoi(s)]: white space, an optional sign, then as many digits as
    there are; what follows them is ignored. *)
Definition stoi (s : string) : exn + Z :=
  let s1 := skip_space s in
  let '(neg, s2) :=
    match s1 with
    | String "-" r => (true, r)
    | String "+" r => (false, r)
    | _ => (false, s1)
    end in
  match s2 with
  | String c _ =>
      if isdigit c then
        let v := digits_value 0 s2 in
        let v := if neg : bool then - v else v in
        if (INT_MIN <=? v) && (v <=? INT_MAX) then inr v
        else inl std_out_of_range
      else inl std_invalid_argument
  | EmptyString => inl std_invalid_argument
  end.

(** [stream.read(buf, n)] on a freshly opened stream: the first [n] bytes,
    or failure when the file is shorter. *)
Definition stream_read (n : nat) (content : string) : option string :=
  if (n <=? String.length content)%nat then Some (substring 0 n content)
  else None.

(** The line [std::getline] stores: the bytes before the first newline. *)
Fixpoint first_line (content : string) : string :=
  match content with
  | String c s' => if Ascii.eqb c LF then EmptyString else String c (first_line s')
  | EmptyString => EmptyString
  end.

(** [std::getline] on a freshly opened stream; it fails only when it
    extracts nothing at all. *)
Definition getline (content : string) : bool * string :=
  (negb (String.eqb content ""), first_line content).

(** [std::replace(s.begin(), s.end(), old, new)]. *)
Fixpoint replace (old new : ascii) (s : string) : string :=
  match s with
  | String c s' => String (if Ascii.eqb c old then new else c) (replace old new s')
  | EmptyString => EmptyString
  end.

(** ** ProcessControl *)

(** [cpu_usage] is a [double] in the source.  The code stores only the
    constants [0.0] and [0.5] in it, both exact in binary floating point,
    so a rational holds them without loss. *)
Record ProcessInfo := {
  cpu_usage : Q;
  memory_usage : Z
}.

Section ProcessControl.
Variable plat : platform.
Variable sys : sysdefs.
Variable w : World.

Definition ifstream (path : string) : io (option string) :=
  emit (EvOpen path) ;; mret (fs w !! path).

Definition proc_path (pid : Z) (leaf : string) : string :=
  "/proc/" +:+ pretty pid +:+ "/" +:+ leaf.

(** *** Signal dispatcher *)

Definition signal_failed (pid sig : Z) (reason : string) : string :=
  "Failed to send signal " +:+ pretty sig +:+ " to PID " +:+ pretty pid
    +:+ ": " +:+ reason.

Definition sendSignal (pid sig : Z) : io bool :=
  emit (EvSignal pid sig) ;;
  match kernel_kill w pid sig with
  | Some reason => emit (EvStderr (signal_failed pid sig reason)) ;; mret false
  | None => mret true
  end.

Definition suspend_unsupported : string :=
  "Process suspension not supported on non-QNX systems".
Definition resume_unsupported : string :=
  "Process resumption not supported on non-QNX systems".

Definition suspend (pid : Z) : io bool :=
  match plat with
  | QNXNTO => sendSignal pid (SIGSTOP sys)
  | OtherPlatform => emit (EvStderr suspend_unsupported) ;; mret false
  end.

Definition resume (pid : Z) : io bool :=
  match plat with
  | QNXNTO => sendSignal pid (SIGCONT sys)
  | OtherPlatform => emit (EvStderr resume_unsupported) ;; mret false
  end.

Definition terminate (pid : Z) : io bool := sendSignal pid (SIGTERM sys).

(** [ProcessControl::exists]: the probe with signal 0. *)
Definition exists_ (pid : Z) : io bool :=
  emit (EvSignal pid 0) ;; mret (bool_decide (kernel_kill w pid 0 = None)).

(** *** Process introspector *)

Definition getParentPid (pid : Z) : io (option Z) :=
  match plat with
  | QNXNTO =>
      info_file ← ifstream (proc_path pid "info");
      match info_file ≫= stream_read (sizeof_debug_process_t sys) with
      | Some pinfo => mret (Some (pinfo_parent sys pinfo))
      | None =>
          status ← ifstream (proc_path pid "status");
          match status with
          | None => mret None
          | Some content =>
              match stream_read (sizeof_procfs_status sys) content with
              | Some pstatus => mret None
              | None => mret None
              end
          end
      end
  | OtherPlatform => mret None
  end.

(** The names the loop does not skip: the negation of
    [name.empty() || !std::isdigit(name[0])]. *)
Definition starts_with_digit (name : string) : bool :=
  match name with
  | String c _ => isdigit c
  | EmptyString => false
  end.

(** The body of the loop over [/proc]. *)
Definition scan_entry (pid : Z) (entry : directory_entry) : stmt (list Z) :=
  match entry_status entry with
  | status_error msg => throw (filesystem_error msg)
  | not_dir => skip
  | is_dir =>
      let name := filename entry in
      if negb (starts_with_digit name) then skip
      else
        try_catch
          (match stoi name with
           | inl e => throw e
           | inr current_pid =>
               run (getParentPid current_pid) (fun parent_pid =>
                 if bool_decide (parent_pid = Some pid)
                 then store (fun children => children ++ [current_pid])
                 else skip)
           end)
          (fun _ => skip)
  end.

Definition child_processes_error (e : exn) : string :=
  "Error getting child processes: " +:+ what e.

Definition getChildProcesses (pid : Z) : io (list Z) :=
  match plat with
  | QNXNTO =>
      let '(t, (children, _)) :=
        try_catch
          (match proc_listing w with
           | inl msg => throw (filesystem_error msg)
           | inr entries => for_each entries (scan_entry pid)
           end)
          (fun e => run (emit (EvStderr (child_processes_error e)))
                        (fun _ => skip))
          [] in
      (t, children)
  | OtherPlatform => mret []
  end.

Definition getCommandLine (pid : Z) : io string :=
  cmdline ← ifstream (proc_path pid "cmdline");
  match cmdline with
  | None => mret ""
  | Some content => mret (replace NUL " " (snd (getline content)))
  end.

Definition getProcessInfo (pid : Z) : io (option ProcessInfo) :=
  alive ← exists_ pid;
  if negb alive then mret None
  else
    let info := {| cpu_usage := 0; memory_usage := 0 |} in
    match plat with
    | QNXNTO =>
        status_file ← ifstream (proc_path pid "status");
        let info :=
          match status_file ≫= stream_read (sizeof_procfs_status sys) with
          | Some pstatus =>
              {| cpu_usage := cpu_usage info;
                 memory_usage := pstatus_stksize sys pstatus |}
          | None => info
          end in
        stat_file ← ifstream (proc_path pid "stat");
        let info :=
          match stat_file with
          | Some content =>
              if fst (getline content)
              then {| cpu_usage := 1 # 2; memory_usage := memory_usage info |}
              else info
          | None => info
          end in
        mret (Some info)
    | OtherPlatform => mret None
    end.

End ProcessControl.

(** ** A concrete instance for examples

    Little-endian 32-bit members; [debug_process_t] starts with [pid] and
    [parent], and [stksize] sits at offset 8 of the status record.  Only
    the examples below depend on this choice: every general theorem is
    stated for an arbitrary [sysdefs]. *)

Fixpoint le_unsigned (n : nat) (s : string) : Z :=
  match n, s with
  | S n', String c s' => Z.of_N (N_of_ascii c) + 256 * le_unsigned n' s'
  | _, _ => 0
  end.

Definition le_int32 (off : nat) (s : string) : Z :=
  let u := le_unsigned 4 (substring off 4 s) in
  if u <? 2 ^ 31 then u else u - 2 ^ 32.

Fixpoint le_bytes (n : nat) (v : Z) : string :=
  match n with
  | O => EmptyString
  | S n' => String (ascii_of_N (Z.to_N (v mod 256))) (le_bytes n' (v / 256))
  end.

Definition example_sys : sysdefs := {|
  SIGSTOP := 23;
  SIGCONT := 25;
  SIGTERM := 15;
  sizeof_debug_process_t := 16;
  pinfo_parent := le_int32 4;
  sizeof_procfs_status := 12;
  pstatus_stksize := fun s => le_unsigned 4 (substring 8 4 s)
|}.

(** The bytes of an info record of [example_sys] for [pid] with [parent]. *)
Definition info_record (pid parent : Z) : string :=
  le_bytes 4 (pid mod 2 ^ 32) +:+ le_bytes 4 (parent mod 2 ^ 32) +:+ le_bytes 8 0.

Definition dir (name : string) : directory_entry :=
  {| filename := name; entry_status := is_dir |}.

Definition ESRCH : string := "No such process".

(** The process table of the specification's example: 100 is a child of 1,
    101 and 102 of 100, and 103 of 101. *)
Definition table_world : World := {|
  kernel_kill := fun pid _ =>
    if bool_decide (pid ∈ [100; 101; 102; 103]) then None else Some ESRCH;
  proc_listing := inr [dir "100"; dir "101"; dir "102"; dir "103"];
  fs := list_to_map
          [("/proc/100/info", info_record 100 1);
           ("/proc/101/info", info_record 101 100);
           ("/proc/102/info", info_record 102 100);
           ("/proc/103/info", info_record 103 101);
           ("/proc/100/status", le_bytes 8 0 +:+ le_bytes 4 4096);
           ("/proc/100/stat", "100 (prog) R" +:+ String LF "");
           ("/proc/100/cmdline", "prog" +:+ String NUL ("--flag" +:+ String NUL "value"));
           ("/proc/101/cmdline",
            "sh" +:+ String NUL ("-c" +:+ String NUL ("a" +:+ String LF "b")))]
|}.

(** * Vocabulary of the statements *)

Section Vocabulary.
Variable sys : sysdefs.
Variable w : World.

(** The info record of [pid] as [getParentPid] reads it: the file must
    open and hold at least [sizeof (debug_process_t)] bytes. *)
Definition read_info (pid : Z) : option string :=
  fs w !! proc_path pid "info" ≫= stream_read (sizeof_debug_process_t sys).

(** The status record as the fallback reads it. *)
Definition read_status (pid : Z) : option string :=
  fs w !! proc_path pid "status" ≫= stream_read (sizeof_procfs_status sys).

(** An entry of [/proc] that the scan takes for the process [c]. *)
Definition candidate (entry : directory_entry) (c : Z) : Prop :=
  entry_status entry = is_dir
  ∧ starts_with_digit (filename entry) = true
  ∧ stoi (filename entry) = inr c.

(** What one entry adds to the children of [pid]. *)
Definition child_of (plat : platform) (pid : Z) (entry : directory_entry)
  : option Z :=
  match entry_status entry with
  | is_dir =>
      if starts_with_digit (filename entry) then
        match stoi (filename entry) with
        | inr c =>
            if bool_decide (result (getParentPid plat sys w c) = Some pid)
            then Some c else None
        | inl _ => None
        end
      else None
  | _ => None
  end.

Definition entry_trace (plat : platform) (entry : directory_entry)
  : list event :=
  match entry_status entry with
  | is_dir =>
      if starts_with_digit (filename entry) then
        match stoi (filename entry) with
        | inr c => trace (getParentPid plat sys w c)
        | inl _ => []
        end
      else []
  | _ => []
  end.

End Vocabulary.

(** The parent that the info record of [pid] declares, when
    [getParentPid] can read the record in full. *)
Definition declared_parent (sys : sysdefs) (w : World) (pid : Z) : option Z :=
  pinfo_parent sys <$> read_info sys w pid.

(** The four entries of the specification's example table. *)
Definition table_entries : list directory_entry :=
  [dir "100"; dir "101"; dir "102"; dir "103"].

(** ** Which entries of [/proc] the scan looks at *)

Fixpoint all_digits (s : string) : bool :=
  match s with
  | String c s' => isdigit c && all_digits s'
  | EmptyString => true
  end.

(** A name that is a decimal number and nothing else. *)
Definition purely_numeric (name : string) : bool :=
  starts_with_digit name && all_digits name.

(** [getChildProcesses pid] considers only directories whose name
    satisfies [accept]: every PID it returns is the [stoi] of such a name,
    and every file it opens is the info or status record of the [stoi] of
    such a name. *)
Definition considers_only (accept : string → bool)
    (plat : platform) (sys : sysdefs) (w : World) (pid : Z) : Prop :=
  (∀ c, c ∈ result (getChildProcesses plat sys w pid) →
     ∃ entries entry,
       proc_listing w = inr entries ∧ entry ∈ entries
       ∧ entry_status entry = is_dir
       ∧ accept (filename entry) = true
       ∧ stoi (filename entry) = inr c)
  ∧ (∀ path, EvOpen path ∈ trace (getChildProcesses plat sys w pid) →
     ∃ entries entry c,
       proc_listing w = inr entries ∧ entry ∈ entries
       ∧ entry_status entry = is_dir
       ∧ accept (filename entry) = true
       ∧ stoi (filename entry) = inr c
       ∧ (path = proc_path c "info" ∨ path = proc_path c "status")).

(** A table with one stray directory, ["101x"], next to the records of
    process 101 (a child of 100), which is itself not listed. *)
Definition stray_world : World := {|
  kernel_kill := fun pid _ => if bool_decide (pid = 101) then None else Some ESRCH;
  proc_listing := inr [dir "101x"];
  fs := {[ "/proc/101/info" := info_record 101 100 ]}
|}.

(** The example table with an entry in the middle whose status cannot be
    obtained. *)
Definition broken_world : World := {|
  kernel_kill := kernel_kill table_world;
  proc_listing :=
    inr [dir "101";
         {| filename := "102"; entry_status := status_error "Permission denied" |};
         dir "102"];
  fs := fs table_world
|}.

(** ** Parent lookup *)

(** The lookup order in the specification's words, for a status layout
    whose parent field is read by [status_parent]: the parent of the info
    record; failing that, the parent field of the status record when it
    yields one; failing that, absent. *)
Definition parent_by_records (status_parent : string → option Z)
    (sys : sysdefs) (w : World) (pid : Z) : option Z :=
  match read_info sys w pid with
  | Some pinfo => Some (pinfo_parent sys pinfo)
  | None => read_status sys w pid ≫= status_parent
  end.

(** A status layout for the examples that, like the info record, carries
    the parent at offset 4. *)
Definition example_status_parent (pstatus : string) : option Z :=
  Some (le_int32 4 pstatus).

(** Process 5 without an info record and with a status record of full
    length whose bytes at offset 4 say 42. *)
Definition fallback_world : World := {|
  kernel_kill := fun pid _ => if bool_decide (pid = 5) then None else Some ESRCH;
  proc_listing := inr [dir "5"];
  fs := {[ "/proc/5/status" := le_bytes 4 5 +:+ le_bytes 4 42 +:+ le_bytes 4 4096 ]}
|}.

(** Process 6 whose info record has the full length but holds text. *)
Definition garbage_world : World := {|
  kernel_kill := fun pid _ => if bool_decide (pid = 6) then None else Some ESRCH;
  proc_listing := inr [dir "6"];
  fs := {[ "/proc/6/info" := "not a record!!!!" ]}
|}.

(** The example table with a directory in front whose number does not fit
    an [int]. *)
Definition overflow_world : World := {|
  kernel_kill := kernel_kill table_world;
  proc_listing := inr (dir "99999999999" :: table_entries);
  fs := fs table_world
|}.

(** ** Failures that can be told apart *)

(** The value [r] that an operation returns is distinct from what a failed
    signal delivery returns. *)
Definition distinct_from_failed_delivery (r : bool) : Prop :=
  ∀ (w : World) (pid sig : Z),
    kernel_kill w pid sig ≠ None → r ≠ result (sendSignal w pid sig).

(** Process 5 with an info record cut short after three bytes and a status
    record of full length. *)
Definition short_world : World := {|
  kernel_kill := fun pid _ => if bool_decide (pid = 5) then None else Some ESRCH;
  proc_listing := inr [dir "5"];
  fs := {[ "/proc/5/info" := "abc";
           "/proc/5/status" := le_bytes 8 0 +:+ le_bytes 4 4096 ]}
|}.

(** A PID behind which there is no process: the kernel refuses every
    signal to it, and the process filesystem has nothing under its
    directory. *)
Definition no_such_process (w : World) (pid : Z) : Prop :=
  (∀ sig, kernel_kill w pid sig ≠ None)
  ∧ (∀ leaf, fs w !! proc_path pid leaf = None).


(** * Authenticator

    The first half of [src/Authenticator.cpp]: the login file format, the
    credential check and the salt generator. *)

(** [enum UserType]: the type field of a login line, 0 or 1. *)
Inductive UserType := VIEWER | ADMIN.

Record UserEntry := {
  username : string;
  hash : string;
  salt : string;
  type : UserType
}.

(** ** [std::string_view] operations *)

(** Position of the first [c] in [s]. *)
Fixpoint find_char (c : ascii) (s : string) : option nat :=
  match s with
  | String a s' => if Ascii.eqb a c then Some O else S <$> find_char c s'
  | EmptyString => None
  end.

(** [sv.substr(pos)] for [pos <= sv.size()]. *)
Fixpoint substr_from (pos : nat) (s : string) : string :=
  match pos, s with
  | S pos', String _ s' => substr_from pos' s'
  | _, _ => s
  end.

(** [sv.find(c, pos)]: [None] is [npos]. *)
Definition sv_find (c : ascii) (sv : string) (pos : nat) : option nat :=
  if (pos <=? String.length sv)%nat
  then (λ i, pos + i)%nat <$> find_char c (substr_from pos sv)
  else None.

(** [std::from_chars(first, last, value)] for an [int] in base 10, as the
    value it leaves in [value]: an optional minus sign and then digits; when
    nothing matches, or the number does not fit an [int], [value] keeps what
    it held. *)
Definition from_chars (s : string) (value : Z) : Z :=
  let '(neg, digits) :=
    match s with
    | String "-" r => (true, r)
    | _ => (false, s)
    end in
  if starts_with_digit digits then
    let v := digits_value 0 digits in
    let v := if neg : bool then - v else v in
    if (INT_MIN <=? v) && (v <=? INT_MAX) then v else value
  else value.

(** ** [UserEntry::FromString] *)

(** The last test of [field_end] against [npos] in the source can never
    succeed after the third [find] has; it is left out. *)
Definition FromString (line : string) : option UserEntry :=
  match sv_find ":" line 0 with
  | None => None
  | Some field_end =>
      let username := substring 0 field_end line in
      let field_start := S field_end in
      match sv_find ":" line field_start with
      | None => None
      | Some field_end =>
          let hash := substring field_start (field_end - field_start) line in
          let field_start := S field_end in
          match sv_find ":" line field_start with
          | None => None
          | Some field_end =>
              let salt := substring field_start (field_end - field_start) line in
              let field_start := S field_end in
              let type_str := substr_from field_start line in
              let type_value := from_chars type_str 0 in
              if (0 >? type_value) || (type_value >? 1) then None
              else
                Some {| username := username; hash := hash; salt := salt;
                        type := if type_value =? 0 then VIEWER else ADMIN |}
          end
      end
  end.

(** ** [generate_hash] and [ValidateLogin] *)

(** What the authenticator needs from outside: the path [LOGIN_FILE] of
    [Authenticator.hpp], the answer of [std::filesystem::exists] (or the
    message of the [filesystem_error] it throws), and [crypt] of the login
    library ([None] is its null result). *)
Record AuthEnv := {
  LOGIN_FILE : string;
  fs_exists : string → string + bool;
  crypt : string → string → option string
}.

(** [s.c_str()] as a C function reads it: the bytes before the first
    null byte. *)
Fixpoint c_str (s : string) : string :=
  match s with
  | String c s' => if Ascii.eqb c NUL then EmptyString else String c (c_str s')
  | EmptyString => EmptyString
  end.

Definition generate_hash (env : AuthEnv) (password salt : string)
  : option string :=
  crypt env (c_str password) (c_str salt).

(** The lines that repeated [std::getline] calls read from a stream. *)
Fixpoint read_lines (content : string) : list string :=
  match content with
  | EmptyString => []
  | String c s' =>
      if Ascii.eqb c LF then EmptyString :: read_lines s'
      else
        match read_lines s' with
        | [] => [String c EmptyString]
        | l :: ls => String c l :: ls
        end
  end.

Definition is_comment (line : string) : bool :=
  match line with
  | EmptyString => true
  | String c _ => Ascii.eqb c "#"
  end.

Definition malformed_line (line : string) : string :=
  "Skipping malformed line in login file: " +:+ line.

(** The [while] loop of [ValidateLogin] over the lines still to read. *)
Fixpoint validate_lines (env : AuthEnv) (name password : string)
    (lines : list string) : io (option UserType) :=
  match lines with
  | [] => mret None
  | line :: rest =>
      if is_comment line then validate_lines env name password rest
      else
        match FromString line with
        | None =>
            emit (EvStderr (malformed_line line)) ;;
            validate_lines env name password rest
        | Some user_entry =>
            if negb (String.eqb (username user_entry) name)
            then validate_lines env name password rest
            else
              match generate_hash env password (salt user_entry) with
              | Some generated_hash =>
                  if String.eqb generated_hash (hash user_entry)
                  then mret (Some (type user_entry))
                  else mret None
              | None => mret None
              end
        end
  end.

(** [ValidateLogin]; the one exception that can leave it is the one
    [std::filesystem::exists] throws. *)
Definition ValidateLogin (env : AuthEnv) (w : World) (name password : string)
  : io (exn + option UserType) :=
  match fs_exists env (LOGIN_FILE env) with
  | inl msg => mret (inl (filesystem_error msg))
  | inr false =>
      emit (EvStderr ("Login file not found: " +:+ LOGIN_FILE env)) ;;
      mret (inr None)
  | inr true =>
      fstream ← ifstream w (LOGIN_FILE env);
      match fstream with
      | None =>
          emit (EvStderr ("Failed to open login file: " +:+ LOGIN_FILE env)) ;;
          mret (inr None)
      | Some content =>
          r ← validate_lines env name password (read_lines content);
          mret (inr r)
      end
  end.

(** ** [generate_salt] *)

Definition SALT_LENGTH : nat := 16.
Definition VALID_CHARS : string :=
  "0123456789abcdefghijklmnopqrstuvwxyzABCDEFGHIJKLMNOPQRSTUVWXYZ./".

(** [VALID_CHARS[i]]; the byte after the last character of a literal is
    its terminating null. *)
Definition valid_char (i : Z) : ascii :=
  default NUL (String.get (Z.to_nat i) VALID_CHARS).

(** A value brought into the range of [int]. *)
Definition wrap_int (z : Z) : Z :=
  let m := z mod 2 ^ 32 in if m <? 2 ^ 31 then m else m - 2 ^ 32.

(** The loop of [generate_salt], [n] turns from the [i]-th call of
    [rand()] on.  [current_time] is an [unsigned long] of [ulong_bits] bits;
    [rand() << 10] is computed in [int] (two's complement where the product
    does not fit) and converted to [unsigned long] for the [|]. *)
Fixpoint salt_loop (ulong_bits : Z) (rand : nat → Z) (i n : nat)
    (current_time : Z) : string :=
  match n with
  | O => EmptyString
  | S n' =>
      String (valid_char (Z.land current_time 63))
        (salt_loop ulong_bits rand (S i) n'
           (Z.lor (Z.shiftr current_time 6)
                  (wrap_int (Z.shiftl (rand i) 10) mod 2 ^ ulong_bits)))
  end.

(** [generate_salt] for the clock value [now] that [time(nullptr)] returns
    and the values [rand 0], [rand 1], ... that the calls of [rand()]
    return. *)
Definition generate_salt (ulong_bits : Z) (now : Z) (rand : nat → Z) : string :=
  "@S@X@" +:+ salt_loop ulong_bits rand 0 SALT_LENGTH (now mod 2 ^ ulong_bits).

(** ** Examples for the authenticator *)

(** A stand-in for [crypt] that only joins salt and key. *)
Definition example_env : AuthEnv := {|
  LOGIN_FILE := "/etc/rpm_login";
  fs_exists := fun path => inr (bool_decide (path = "/etc/rpm_login"));
  crypt := fun key salt => Some (salt +:+ "$" +:+ key)
|}.

Definition login_world : World := {|
  kernel_kill := fun _ _ => Some ESRCH;
  proc_listing := inr [];
  fs := {[ "/etc/rpm_login" :=
             "# users" +:+ String LF
               ("alice:@S@X@ab$secret:@S@X@ab:1" +:+ String LF
               ("bob:@S@X@cd$hunter2:@S@X@cd:0" +:+ String LF
               ("broken line" +:+ String LF
               ("alice:@S@X@zz$other:@S@X@zz:0" +:+ String LF "")))) ]}
|}.

(** A process whose cmdline record begins with a newline. *)
Definition blank_world : World := {|
  kernel_kill := fun pid _ => if bool_decide (pid = 7) then None else Some ESRCH;
  proc_listing := inr [dir "7"];
  fs := {[ "/proc/7/cmdline" := String LF "ignored" ]}
|}.

(** The world [w] with another listing of [/proc]. *)
Definition with_listing (w : World) (entries : list directory_entry) : World :=
  {| kernel_kill := kernel_kill w; proc_listing := inr entries; fs := fs w |}.

(** * Properties *)

Ltac unfold_io :=
  unfold ifstream, emit, trace, result, mbind, io_bind, mret, io_ret in *;
  cbn [fst snd] in *.

Lemma elem_of_option_list {A} (x : A) (o : option A) :
  x ∈ option_list o → o = Some x.
Proof.
  destruct o as [y|]; cbn.
  - by intros ->%list_elem_of_singleton.
  - intros []%elem_of_nil.
Qed.

Section Facts.
Variable sys : sysdefs.
Variable w : World.

Lemma getParentPid_other pid :
  getParentPid OtherPlatform sys w pid = ([], None).
Proof. reflexivity. Qed.

Lemma getParentPid_info pid pinfo :
  read_info sys w pid = Some pinfo →
  getParentPid QNXNTO sys w pid
  = ([EvOpen (proc_path pid "info")], Some (pinfo_parent sys pinfo)).
Proof.
  unfold read_info, getParentPid. unfold_io. intros ->. reflexivity.
Qed.

Lemma getParentPid_no_info pid :
  read_info sys w pid = None →
  getParentPid QNXNTO sys w pid
  = ([EvOpen (proc_path pid "info"); EvOpen (proc_path pid "status")], None).
Proof.
  unfold read_info, getParentPid. unfold_io. intros ->.
  destruct (fs w !! proc_path pid "status") as [content|]; [|reflexivity].
  destruct (stream_read _ content); reflexivity.
Qed.

Lemma getParentPid_trace plat pid ev :
  ev ∈ trace (getParentPid plat sys w pid) →
  ev = EvOpen (proc_path pid "info") ∨ ev = EvOpen (proc_path pid "status").
Proof.
  destruct plat.
  - destruct (read_info sys w pid) as [pinfo|] eqn:Hinfo.
    + rewrite (getParentPid_info _ _ Hinfo). cbn.
      intros [->|[]%elem_of_nil]%elem_of_cons. by left.
    + rewrite (getParentPid_no_info _ Hinfo). cbn.
      intros [->|[->|[]%elem_of_nil]%elem_of_cons]%elem_of_cons; auto.
  - rewrite getParentPid_other. cbn. intros []%elem_of_nil.
Qed.

Lemma child_of_candidate plat pid entry c :
  child_of sys w plat pid entry = Some c →
  candidate entry c ∧ result (getParentPid plat sys w c) = Some pid.
Proof.
  unfold child_of, candidate.
  destruct (entry_status entry); try discriminate.
  destruct (starts_with_digit _); try discriminate.
  destruct (stoi _) as [e|c']; try discriminate.
  case_bool_decide; [|discriminate]. intros [= ->]. auto.
Qed.

Lemma entry_trace_candidate plat entry ev :
  ev ∈ entry_trace sys w plat entry →
  ∃ c, candidate entry c ∧ ev ∈ trace (getParentPid plat sys w c).
Proof.
  unfold entry_trace, candidate.
  destruct (entry_status entry); [|intros []%elem_of_nil..].
  destruct (starts_with_digit _); [|intros []%elem_of_nil].
  destruct (stoi _) as [e|c]; [intros []%elem_of_nil|].
  intros Hev. exists c. auto.
Qed.

(** One turn of the loop: unless [is_directory] throws, the entry's
    child (if it is one) is pushed and the loop goes on. *)
Lemma scan_entry_ok plat pid entry children :
  (∀ msg, entry_status entry ≠ status_error msg) →
  scan_entry plat sys w pid entry children
  = (entry_trace sys w plat entry,
     (children ++ option_list (child_of sys w plat pid entry), None)).
Proof.
  intros Hok. unfold scan_entry, entry_trace, child_of.
  destruct (entry_status entry) as [| |msg]; [| |by destruct (Hok msg)].
  - destruct (starts_with_digit _); cbn.
    + destruct (stoi _) as [e|c]; cbn.
      * by rewrite app_nil_r.
      * unfold try_catch, run, result.
        destruct (getParentPid plat sys w c) as [t parent]; cbn.
        case_bool_decide; cbn; by rewrite !app_nil_r.
    + by rewrite app_nil_r.
  - cbn. by rewrite app_nil_r.
Qed.

Lemma scan_entry_throws plat pid entry children msg :
  entry_status entry = status_error msg →
  scan_entry plat sys w pid entry children
  = ([], (children, Some (filesystem_error msg))).
Proof. unfold scan_entry. intros ->. reflexivity. Qed.

(** The whole loop when no [is_directory] throws. *)
Lemma for_each_scan_ok plat pid entries children :
  (∀ entry msg, entry ∈ entries → entry_status entry ≠ status_error msg) →
  for_each entries (scan_entry plat sys w pid) children
  = (entries ≫= entry_trace sys w plat,
     (children ++ omap (child_of sys w plat pid) entries, None)).
Proof.
  revert children.
  induction entries as [|entry entries IH]; intros children Hok; cbn.
  - by rewrite app_nil_r.
  - unfold seq. rewrite scan_entry_ok by (intros msg; apply Hok; left).
    rewrite IH by (intros e msg He; apply Hok; by right).
    destruct (child_of sys w plat pid entry); cbn; by rewrite <- ?app_assoc.
Qed.

(** The loop in general: it may stop early, but whatever it pushed and
    whatever it opened came from a candidate entry. *)
Lemma for_each_scan_sound plat pid entries children t children' x :
  for_each entries (scan_entry plat sys w pid) children = (t, (children', x)) →
  (∀ c, c ∈ children' → c ∈ children ∨
     ∃ entry, entry ∈ entries ∧ child_of sys w plat pid entry = Some c)
  ∧ (∀ ev, ev ∈ t → ∃ entry, entry ∈ entries ∧ ev ∈ entry_trace sys w plat entry).
Proof.
  revert children t children' x.
  induction entries as [|entry entries IH]; intros children t children' x; cbn.
  - intros [= <- <- <-]. set_solver.
  - unfold seq.
    destruct (entry_status entry) as [| |msg] eqn:Hst.
    3: { rewrite (scan_entry_throws _ _ _ _ _ Hst). intros [= <- <- <-].
         split; [by left | intros ev []%elem_of_nil]. }
    all: rewrite scan_entry_ok by (intros msg; congruence).
    all: destruct (for_each entries _ _) as [t2 [c2 x2]] eqn:Hrest.
    all: intros [= <- <- <-]; apply IH in Hrest as [Hc Ht]; split.
    1,3: intros c [Hin|(e & He & Hch)]%Hc;
         [|right; exists e; split; [by right|done]];
         apply elem_of_app in Hin as [Hin|Hin]; [by left|];
         apply elem_of_option_list in Hin;
         right; exists entry; split; [left|done].
    all: intros ev [Hin|Hin]%elem_of_app; [exists entry; split; [left|done]|];
         apply Ht in Hin as (e & He & Hin); exists e; split; [by right|done].
Qed.

End Facts.

Section ChildProcesses.
Variable sys : sysdefs.
Variable w : World.

Lemma getChildProcesses_other pid :
  getChildProcesses OtherPlatform sys w pid = ([], []).
Proof. reflexivity. Qed.

(** On QNX, when [/proc] can be listed and no [is_directory] throws, the
    children are the entries' children, in directory order. *)
Lemma getChildProcesses_ok pid entries :
  proc_listing w = inr entries →
  (∀ entry msg, entry ∈ entries → entry_status entry ≠ status_error msg) →
  getChildProcesses QNXNTO sys w pid
  = (entries ≫= entry_trace sys w QNXNTO,
     omap (child_of sys w QNXNTO pid) entries).
Proof.
  intros Hls Hok. unfold getChildProcesses, try_catch. rewrite Hls.
  by rewrite for_each_scan_ok.
Qed.

(** In every case a returned PID and an opened file come from an entry
    of the listing. *)
Lemma getChildProcesses_sound plat pid :
  (∀ c, c ∈ result (getChildProcesses plat sys w pid) →
     ∃ entries entry, proc_listing w = inr entries ∧ entry ∈ entries
       ∧ child_of sys w plat pid entry = Some c)
  ∧ (∀ path, EvOpen path ∈ trace (getChildProcesses plat sys w pid) →
     ∃ entries entry, proc_listing w = inr entries ∧ entry ∈ entries
       ∧ EvOpen path ∈ entry_trace sys w plat entry).
Proof.
  destruct plat; [|split; intros ? []%elem_of_nil].
  unfold getChildProcesses, try_catch.
  destruct (proc_listing w) as [msg|entries] eqn:Hls.
  - cbn. split.
    + intros c []%elem_of_nil.
    + intros path [[=]|[]%elem_of_nil]%elem_of_cons.
  - destruct (for_each entries _ _) as [t [children x]] eqn:Hscan.
    apply for_each_scan_sound in Hscan as [Hc Ht].
    assert (∀ path, EvOpen path ∈ t → ∃ entries0 entry,
              @inr string _ entries = inr entries0 ∧ entry ∈ entries0
              ∧ EvOpen path ∈ entry_trace sys w QNXNTO entry) as Ht'.
    { intros path (entry & He & Hin)%Ht. by exists entries, entry. }
    assert (∀ c, c ∈ children → ∃ entries0 entry,
              @inr string _ entries = inr entries0 ∧ entry ∈ entries0
              ∧ child_of sys w QNXNTO pid entry = Some c) as Hc'.
    { intros c [[]%elem_of_nil|(entry & He & Hch)]%Hc. by exists entries, entry. }
    destruct x as [e|]; cbn; split; try done.
    intros path [Hin|Hin]%elem_of_app; [by apply Ht'|].
    apply elem_of_cons in Hin as [[=]|[]%elem_of_nil].
Qed.

End ChildProcesses.

Lemma child_of_declared sys w pid name c parent :
  starts_with_digit name = true →
  stoi name = inr c →
  declared_parent sys w c = Some parent →
  child_of sys w QNXNTO pid (dir name)
  = if bool_decide (parent = pid) then Some c else None.
Proof.
  unfold declared_parent, child_of, dir. cbn [entry_status filename].
  intros -> -> Hp.
  destruct (read_info sys w c) as [pinfo|] eqn:Hinfo; [|discriminate].
  rewrite (getParentPid_info _ _ _ _ Hinfo). cbn in Hp |- *.
  injection Hp as ->. repeat case_bool_decide; congruence.
Qed.

(** C1. For a process table that holds exactly the records
    [{100: parent=1}], [{101: parent=100}], [{102: parent=100}] and
    [{103: parent=101}], in whatever order the directory yields them,
    [getChildProcesses(100)] returns exactly the set [{101, 102}] (each
    once) and [getChildProcesses(101)] returns exactly [{103}].  The
    records are the ones the QNX build reads. *)
Theorem getChildProcesses_example_table sys w entries :
  proc_listing w = inr entries →
  entries ≡ₚ table_entries →
  declared_parent sys w 100 = Some 1 →
  declared_parent sys w 101 = Some 100 →
  declared_parent sys w 102 = Some 100 →
  declared_parent sys w 103 = Some 101 →
  (result (getChildProcesses QNXNTO sys w 100) ≡ₚ [101; 102]
   ∧ list_to_set (result (getChildProcesses QNXNTO sys w 100))
     =@{gset Z} {[101; 102]})
  ∧ (result (getChildProcesses QNXNTO sys w 101) = [103]
     ∧ list_to_set (result (getChildProcesses QNXNTO sys w 101))
       =@{gset Z} {[103]}).
Proof.
  intros Hls Hperm H100 H101 H102 H103.
  assert (∀ entry msg, entry ∈ entries → entry_status entry ≠ status_error msg)
    as Hok.
  { intros entry msg Hin. rewrite Hperm in Hin. unfold table_entries in Hin.
    repeat (apply elem_of_cons in Hin as [->|Hin]; [discriminate|]).
    by apply elem_of_nil in Hin. }
  assert (∀ pid, result (getChildProcesses QNXNTO sys w pid)
                 ≡ₚ omap (child_of sys w QNXNTO pid) table_entries) as Hres.
  { intros pid. rewrite (getChildProcesses_ok _ _ _ _ Hls Hok). cbn.
    by rewrite Hperm. }
  assert (omap (child_of sys w QNXNTO 100) table_entries = [101; 102]) as E100.
  { unfold table_entries. cbn [omap list_omap].
    rewrite (child_of_declared _ _ _ "100" 100 1),
            (child_of_declared _ _ _ "101" 101 100),
            (child_of_declared _ _ _ "102" 102 100),
            (child_of_declared _ _ _ "103" 103 101) by done.
    reflexivity. }
  assert (omap (child_of sys w QNXNTO 101) table_entries = [103]) as E101.
  { unfold table_entries. cbn [omap list_omap].
    rewrite (child_of_declared _ _ _ "100" 100 1),
            (child_of_declared _ _ _ "101" 101 100),
            (child_of_declared _ _ _ "102" 102 100),
            (child_of_declared _ _ _ "103" 103 101) by done.
    reflexivity. }
  pose proof (Hres 100) as P100. pose proof (Hres 101) as P101.
  rewrite E100 in P100. rewrite E101 in P101.
  repeat split.
  - exact P100.
  - rewrite P100. set_solver.
  - by apply Permutation_singleton_r.
  - rewrite P101. set_solver.
Qed.

(** The example table of [table_world] is such a table. *)
Lemma getChildProcesses_example_table_witness :
  (result (getChildProcesses QNXNTO example_sys table_world 100) ≡ₚ [101; 102]
   ∧ list_to_set (result (getChildProcesses QNXNTO example_sys table_world 100))
     =@{gset Z} {[101; 102]})
  ∧ (result (getChildProcesses QNXNTO example_sys table_world 101) = [103]
     ∧ list_to_set (result (getChildProcesses QNXNTO example_sys table_world 101))
       =@{gset Z} {[103]}).
Proof.
  apply (getChildProcesses_example_table example_sys table_world table_entries).
  - reflexivity.
  - reflexivity.
  - vm_compute. reflexivity.
  - vm_compute. reflexivity.
  - vm_compute. reflexivity.
  - vm_compute. reflexivity.
Defined.

(** ** Which entries of [/proc] the scan looks at *)

Lemma isdigit_not_space c : isdigit c = true → isspace c = false.
Proof.
  unfold isdigit, isspace. intros H.
  apply andb_true_iff in H as [H1 H2].
  apply N.leb_le in H1. apply N.leb_le in H2.
  apply orb_false_iff. split.
  - apply N.eqb_neq. lia.
  - apply andb_false_iff. right. apply N.leb_gt. lia.
Qed.

Lemma isdigit_not_sign c s :
  isdigit c = true →
  match String c s with
  | String "-" r => (true, r)
  | String "+" r => (false, r)
  | _ => (false, String c s)
  end = (false, String c s).
Proof.
  destruct c as [[] [] [] [] [] [] [] []]; try reflexivity; discriminate.
Qed.

Lemma digit_value_nonneg c : isdigit c = true → 0 ≤ digit_value c.
Proof.
  unfold isdigit, digit_value. intros [H _]%andb_true_iff.
  apply N.leb_le in H. lia.
Qed.

Lemma digits_value_nonneg s acc : 0 ≤ acc → 0 ≤ digits_value acc s.
Proof.
  revert acc. induction s as [|c s IH]; intros acc Hacc; cbn; [done|].
  destruct (isdigit c) eqn:Hc; [|done].
  apply IH. pose proof (digit_value_nonneg c Hc). lia.
Qed.

(** On a name that begins with a digit, [stoi] is the value of the leading
    run of digits, or [out_of_range] when that does not fit an [int]. *)
Lemma stoi_starts_with_digit name :
  starts_with_digit name = true →
  stoi name = if digits_value 0 name <=? INT_MAX
              then inr (digits_value 0 name) else inl std_out_of_range.
Proof.
  destruct name as [|c s]; [discriminate|]. cbn [starts_with_digit].
  intros Hc. unfold stoi. cbn [skip_space].
  rewrite (isdigit_not_space _ Hc), (isdigit_not_sign _ s Hc), Hc.
  assert ((INT_MIN <=? digits_value 0 (String c s)) = true) as ->; [|done].
  apply Z.leb_le. pose proof (digits_value_nonneg (String c s) 0).
  unfold INT_MIN. lia.
Qed.

Lemma purely_numeric_starts_with_digit name :
  purely_numeric name = true → starts_with_digit name = true.
Proof. by intros [? _]%andb_true_iff. Qed.

Example stoi_examples :
  stoi "101" = inr 101
  ∧ stoi "101x" = inr 101
  ∧ stoi "2147483648" = inl std_out_of_range
  ∧ stoi "x" = inl std_invalid_argument.
Proof. repeat split; reflexivity. Qed.

(** When [is_directory] throws, the scan ends there: the outer handler
    reports the error and the children found so far are returned. *)
Example getChildProcesses_scan_aborted :
  getChildProcesses QNXNTO example_sys broken_world 100
  = ([EvOpen "/proc/101/info";
      EvStderr "Error getting child processes: Permission denied"],
     [101]).
Proof. vm_compute. reflexivity. Qed.

(** C2, as stated, fails: in [stray_world] the only entry, ["101x"], is
    not purely numeric, yet it is looked up as process 101 and 101 is
    returned as a child of 100. *)
Lemma getChildProcesses_purely_numeric_counterexample :
  purely_numeric "101x" = false
  ∧ getChildProcesses QNXNTO example_sys stray_world 100
    = ([EvOpen "/proc/101/info"], [101])
  ∧ ¬ considers_only purely_numeric QNXNTO example_sys stray_world 100.
Proof.
  split; [reflexivity|]. split; [vm_compute; reflexivity|].
  intros [Hres _].
  destruct (Hres 101) as (entries & entry & Hls & Hin & _ & Hnum & _).
  { vm_compute. left. }
  injection Hls as <-.
  apply list_elem_of_singleton in Hin as ->. discriminate.
Qed.

(** C2, amended.  [getChildProcesses] considers only directories whose
    name begins with a decimal digit: every PID it returns and every record
    it opens belongs to the [stoi] of such a name.  An entry that is not a
    directory, or whose name is empty or begins with another character, is
    passed over without any lookup.  For a name that begins with a digit
    the candidate PID is the value of its leading digits (what follows them
    is ignored), and the entry is passed over when that value does not fit
    an [int]. *)
Theorem getChildProcesses_considers_digit_led plat sys w pid :
  considers_only starts_with_digit plat sys w pid
  ∧ (∀ entry children,
       entry_status entry = not_dir
       ∨ (entry_status entry = is_dir ∧ starts_with_digit (filename entry) = false) →
       scan_entry plat sys w pid entry children = ([], (children, None)))
  ∧ (∀ name,
       starts_with_digit name = true →
       stoi name = if digits_value 0 name <=? INT_MAX
                   then inr (digits_value 0 name) else inl std_out_of_range)
  ∧ (∀ entry children,
       entry_status entry = is_dir →
       starts_with_digit (filename entry) = true →
       INT_MAX < digits_value 0 (filename entry) →
       scan_entry plat sys w pid entry children = ([], (children, None)))
  ∧ (∀ entry children,
       entry_status entry = is_dir →
       starts_with_digit (filename entry) = true →
       digits_value 0 (filename entry) ≤ INT_MAX →
       scan_entry plat sys w pid entry children
       = (trace (getParentPid plat sys w (digits_value 0 (filename entry))),
          (if bool_decide
                (result (getParentPid plat sys w (digits_value 0 (filename entry)))
                 = Some pid)
           then children ++ [digits_value 0 (filename entry)] else children,
           None))).
Proof.
  split; [|split; [|split; [|split]]].
  - destruct (getChildProcesses_sound sys w plat pid) as [Hc Ht]. split.
    + intros c (entries & entry & Hls & Hin & Hch)%Hc.
      apply child_of_candidate in Hch as [(Hdir & Hdig & Hstoi) _].
      by exists entries, entry.
    + intros path (entries & entry & Hls & Hin & Hev)%Ht.
      apply entry_trace_candidate in Hev as (c & (Hdir & Hdig & Hstoi) & Hev).
      apply getParentPid_trace in Hev.
      exists entries, entry, c. repeat split; try done.
      destruct Hev as [[= ->]|[= ->]]; auto.
  - intros entry children [Hst|[Hst Hdig]]; unfold scan_entry; rewrite Hst.
    + reflexivity.
    + by rewrite Hdig.
  - apply stoi_starts_with_digit.
  - intros entry children Hst Hdig Hbig. unfold scan_entry.
    rewrite Hst, Hdig, (stoi_starts_with_digit _ Hdig).
    by rewrite (proj2 (Z.leb_gt _ _) Hbig).
  - intros entry children Hst Hdig Hfit. unfold scan_entry.
    rewrite Hst, Hdig, (stoi_starts_with_digit _ Hdig).
    rewrite (proj2 (Z.leb_le _ _) Hfit). cbn [negb].
    unfold try_catch, run, result, trace.
    destruct (getParentPid plat sys w _) as [t parent]. cbn.
    case_bool_decide; cbn; by rewrite !app_nil_r.
Qed.

(** The directory ["99999999999"] of [overflow_world]: digit-led, beyond
    [INT_MAX], passed over. *)
Lemma getChildProcesses_considers_digit_led_witness :
  scan_entry QNXNTO example_sys overflow_world 100 (dir "99999999999") [7]
  = ([], ([7], None)).
Proof.
  apply (proj1 (proj2 (proj2 (proj2
           (getChildProcesses_considers_digit_led
              QNXNTO example_sys overflow_world 100))))).
  - reflexivity.
  - reflexivity.
  - vm_compute. reflexivity.
Defined.

(** A directory whose number does not fit an [int] is passed over and the
    scan goes on to the entries after it. *)
Example getChildProcesses_skips_overflow :
  getChildProcesses QNXNTO example_sys overflow_world 100
  = ([EvOpen "/proc/100/info"; EvOpen "/proc/101/info";
      EvOpen "/proc/102/info"; EvOpen "/proc/103/info"],
     [101; 102]).
Proof. vm_compute. reflexivity. Qed.

(** ** Parent lookup *)

(** C3, as stated, fails in two places.  In [fallback_world] the info
    record of process 5 is unavailable and its status record, read in full,
    yields the parent field 42 under [example_status_parent]; the lookup
    order of the claim gives 42, and [getParentPid] opens the status record
    and returns absent.  In [garbage_world] the info record of process 6 has
    the full length and holds text; [getParentPid] does not return absent but
    the number that stands at the parent's place. *)
Lemma getParentPid_status_fallback_counterexample :
  read_info example_sys fallback_world 5 = None
  ∧ (read_status example_sys fallback_world 5 ≫= example_status_parent) = Some 42
  ∧ parent_by_records example_status_parent example_sys fallback_world 5 = Some 42
  ∧ getParentPid QNXNTO example_sys fallback_world 5
    = ([EvOpen "/proc/5/info"; EvOpen "/proc/5/status"], None)
  ∧ result (getParentPid QNXNTO example_sys fallback_world 5)
    ≠ parent_by_records example_status_parent example_sys fallback_world 5
  ∧ result (getParentPid QNXNTO example_sys garbage_world 6) = Some 1701978209.
Proof.
  split; [vm_compute; reflexivity|].
  split; [vm_compute; reflexivity|].
  split; [vm_compute; reflexivity|].
  split; [vm_compute; reflexivity|].
  split; [vm_compute; discriminate|].
  vm_compute. reflexivity.
Qed.

(** C3, amended.  On the QNX build [getParentPid(p)] returns the parent
    member of [p]'s info record whenever that file opens and holds at least
    [sizeof (debug_process_t)] bytes, whatever the bytes are.  When the file
    is missing or shorter, the status record is opened as the fallback, but
    no parent is ever taken from it: the answer is absent, whether the
    status record is missing, short or complete.  So the answer is that of
    the info record alone, and it agrees with the lookup order "info, then
    status, then absent" exactly for status layouts that yield no parent
    where the fallback is reached.  There is no exceptional outcome. *)
Theorem getParentPid_info_record_only sys w pid :
  (∀ content,
     fs w !! proc_path pid "info" = Some content →
     (sizeof_debug_process_t sys ≤ String.length content)%nat →
     getParentPid QNXNTO sys w pid
     = ([EvOpen (proc_path pid "info")],
        Some (pinfo_parent sys
                (substring 0 (sizeof_debug_process_t sys) content))))
  ∧ (∀ content,
       fs w !! proc_path pid "info" = Some content →
       (String.length content < sizeof_debug_process_t sys)%nat →
       getParentPid QNXNTO sys w pid
       = ([EvOpen (proc_path pid "info"); EvOpen (proc_path pid "status")],
          None))
  ∧ (fs w !! proc_path pid "info" = None →
       getParentPid QNXNTO sys w pid
       = ([EvOpen (proc_path pid "info"); EvOpen (proc_path pid "status")],
          None))
  ∧ result (getParentPid QNXNTO sys w pid) = declared_parent sys w pid
  ∧ (∀ status_parent,
       result (getParentPid QNXNTO sys w pid)
       = parent_by_records status_parent sys w pid
       ↔ (read_info sys w pid = None →
          read_status sys w pid ≫= status_parent = None)).
Proof.
  assert (result (getParentPid QNXNTO sys w pid) = declared_parent sys w pid)
    as Hdecl.
  { unfold declared_parent.
    destruct (read_info sys w pid) as [pinfo|] eqn:Hinfo.
    - by rewrite (getParentPid_info _ _ _ _ Hinfo).
    - by rewrite (getParentPid_no_info _ _ _ Hinfo). }
  split; [|split; [|split; [|split]]].
  - intros content Hc Hlen. apply getParentPid_info.
    unfold read_info. rewrite Hc. cbn. unfold stream_read.
    by rewrite (proj2 (Nat.leb_le _ _) Hlen).
  - intros content Hc Hlen. apply getParentPid_no_info.
    unfold read_info. rewrite Hc. cbn. unfold stream_read.
    by rewrite (proj2 (Nat.leb_gt _ _) Hlen).
  - intros Hc. apply getParentPid_no_info. unfold read_info. by rewrite Hc.
  - exact Hdecl.
  - intros status_parent. rewrite Hdecl.
    unfold declared_parent, parent_by_records.
    destruct (read_info sys w pid) as [pinfo|]; cbn.
    + split; [intros _ [=]|done].
    + split; [by intros <- _|]. intros H. by rewrite H.
Qed.

(** Process 103 of the example table: its info record has the full
    16 bytes and names 101. *)
Lemma getParentPid_info_record_only_witness :
  fs table_world !! proc_path 103 "info" = Some (info_record 103 101)
  ∧ (sizeof_debug_process_t example_sys ≤ String.length (info_record 103 101))%nat
  ∧ getParentPid QNXNTO example_sys table_world 103
    = ([EvOpen "/proc/103/info"], Some 101).
Proof.
  assert (fs table_world !! proc_path 103 "info" = Some (info_record 103 101))
    as Hfile by (vm_compute; reflexivity).
  assert (sizeof_debug_process_t example_sys ≤ String.length (info_record 103 101))%nat
    as Hlen by (vm_compute; lia).
  split; [exact Hfile|]. split; [exact Hlen|].
  exact (proj1 (getParentPid_info_record_only example_sys table_world 103)
           (info_record 103 101) Hfile Hlen).
Defined.

(** The three cases on concrete records: a full info record, a short one
    with a full status record behind it, and no record at all. *)
Example getParentPid_examples :
  getParentPid QNXNTO example_sys table_world 103
  = ([EvOpen "/proc/103/info"], Some 101)
  ∧ getParentPid QNXNTO example_sys short_world 5
    = ([EvOpen "/proc/5/info"; EvOpen "/proc/5/status"], None)
  ∧ getParentPid QNXNTO example_sys table_world 7
    = ([EvOpen "/proc/7/info"; EvOpen "/proc/7/status"], None).
Proof. repeat split; vm_compute; reflexivity. Qed.

(** ** Existence check and process information *)

Lemma exists_eq w pid :
  exists_ w pid = ([EvSignal pid 0], bool_decide (kernel_kill w pid 0 = None)).
Proof. reflexivity. Qed.

Lemma getProcessInfo_dead plat sys w pid :
  result (exists_ w pid) = false →
  getProcessInfo plat sys w pid = ([EvSignal pid 0], None).
Proof.
  unfold getProcessInfo. rewrite exists_eq. cbn. intros ->. reflexivity.
Qed.

Lemma getProcessInfo_other sys w pid :
  getProcessInfo OtherPlatform sys w pid = ([EvSignal pid 0], None).
Proof.
  unfold getProcessInfo. rewrite exists_eq. cbn.
  by destruct (bool_decide _).
Qed.

(** C4. For a PID whose existence check is false, [getProcessInfo]
    returns absent at once: the probe is the only thing it does, and neither
    the status record nor the stat record (nor any other file) is opened. *)
Theorem getProcessInfo_nonexistent plat sys w pid :
  result (exists_ w pid) = false →
  result (getProcessInfo plat sys w pid) = None
  ∧ trace (getProcessInfo plat sys w pid) = [EvSignal pid 0]
  ∧ ∀ path, EvOpen path ∉ trace (getProcessInfo plat sys w pid).
Proof.
  intros Hdead. rewrite (getProcessInfo_dead _ _ _ _ Hdead). cbn.
  repeat split. by intros path [[=]|[]%elem_of_nil]%elem_of_cons.
Qed.

Lemma getProcessInfo_nonexistent_witness :
  result (getProcessInfo QNXNTO example_sys table_world 7) = None
  ∧ trace (getProcessInfo QNXNTO example_sys table_world 7) = [EvSignal 7 0]
  ∧ ∀ path, EvOpen path ∉ trace (getProcessInfo QNXNTO example_sys table_world 7).
Proof.
  apply (getProcessInfo_nonexistent QNXNTO example_sys table_world 7).
  vm_compute. reflexivity.
Defined.

(** C5. For an identifier that does not correspond to a live process,
    [exists] is false and both [getParentPid] and [getProcessInfo] return
    absent. *)
Theorem no_such_process_absent plat sys w pid :
  no_such_process w pid →
  result (exists_ w pid) = false
  ∧ result (getParentPid plat sys w pid) = None
  ∧ result (getProcessInfo plat sys w pid) = None.
Proof.
  intros [Hkill Hfs].
  assert (result (exists_ w pid) = false) as Hdead.
  { rewrite exists_eq. cbn. apply bool_decide_eq_false, Hkill. }
  repeat split.
  - exact Hdead.
  - destruct plat; [|reflexivity].
    rewrite getParentPid_no_info; [done|].
    unfold read_info. by rewrite Hfs.
  - by rewrite (getProcessInfo_dead _ _ _ _ Hdead).
Qed.

Lemma no_such_process_7 : no_such_process table_world 7.
Proof.
  split.
  - intros sig. vm_compute. discriminate.
  - intros leaf. apply not_elem_of_list_to_map. cbn.
    intros Hin.
    repeat (apply elem_of_cons in Hin as [[=]|Hin]).
    by apply elem_of_nil in Hin.
Defined.

Lemma no_such_process_absent_witness :
  result (exists_ table_world 7) = false
  ∧ result (getParentPid QNXNTO example_sys table_world 7) = None
  ∧ result (getProcessInfo QNXNTO example_sys table_world 7) = None.
Proof.
  apply (no_such_process_absent QNXNTO example_sys table_world 7).
  exact no_such_process_7.
Defined.

(** ** Command line *)

Lemma getCommandLine_eq w pid content :
  fs w !! proc_path pid "cmdline" = Some content →
  getCommandLine w pid
  = ([EvOpen (proc_path pid "cmdline")], replace NUL " " (first_line content)).
Proof. unfold getCommandLine. unfold_io. intros ->. reflexivity. Qed.


Lemma first_line_app pre post :
  LF ∉ list_ascii_of_string pre →
  first_line (pre +:+ String LF post) = pre.
Proof.
  induction pre as [|c pre IH]; cbn.
  - by intros _.
  - intros Hnl.
    change (String c pre +:+ String LF post)
      with (String c (pre +:+ String LF post)).
    cbn [first_line]. destruct (Ascii.eqb_spec c LF) as [->|_].
    + destruct Hnl. left.
    + f_equal. apply IH. intros Hin. apply Hnl. by right.
Qed.

Lemma replace_length old new s :
  String.length (replace old new s) = String.length s.
Proof. induction s as [|c s IH]; cbn; congruence. Qed.





(** C10. [getCommandLine] returns only what precedes the first newline of
    the cmdline record: for a record [pre ++ "\n" ++ post] with no newline
    in [pre], the result is [pre] with its null bytes replaced by spaces,
    as long as [pre]; nothing of the newline or of [post] is in it. *)
Theorem getCommandLine_first_line_only w pid pre post :
  fs w !! proc_path pid "cmdline" = Some (pre +:+ String LF post) →
  LF ∉ list_ascii_of_string pre →
  result (getCommandLine w pid) = replace NUL " " pre
  ∧ String.length (result (getCommandLine w pid)) = String.length pre
  ∧ LF ∉ list_ascii_of_string (result (getCommandLine w pid)).
Proof.
  intros Hfile Hnl. rewrite (getCommandLine_eq _ _ _ Hfile). cbn [result snd].
  rewrite (first_line_app _ _ Hnl). repeat split.
  - apply replace_length.
  - intros Hin. apply Hnl. clear Hfile Hnl.
    induction pre as [|c pre IH]; cbn in *; [done|].
    apply elem_of_cons in Hin as [Heq|Hin]; [|right; by apply IH].
    destruct (Ascii.eqb_spec c NUL) as [->|_]; [discriminate|]. subst. left.
Qed.

Lemma getCommandLine_first_line_only_witness :
  result (getCommandLine table_world 101) = "sh -c a"
  ∧ String.length (result (getCommandLine table_world 101)) = 7%nat.
Proof.
  destruct (getCommandLine_first_line_only table_world 101
              ("sh" +:+ String NUL ("-c" +:+ String NUL "a")) "b")
    as (Hres & Hlen & _).
  - vm_compute. reflexivity.
  - vm_compute. intros Hin.
    repeat (apply elem_of_cons in Hin as [[=]|Hin]).
    by apply elem_of_nil in Hin.
  - split; [exact Hres | exact Hlen].
Defined.

(** ** Suspend and resume without kernel support *)

(** C7, as stated, fails: what [suspend] and [resume] return on a build
    that is not for QNX is not distinct from what a failed signal delivery
    returns.  Process 7 of [table_world] does not exist; terminating it
    fails with the same [false]. *)
Lemma suspend_resume_distinct_counterexample :
  kernel_kill table_world 7 (SIGTERM example_sys) = Some ESRCH
  ∧ terminate example_sys table_world 7
    = ([EvSignal 7 15; EvStderr "Failed to send signal 15 to PID 7: No such process"],
       false)
  ∧ result (suspend OtherPlatform example_sys table_world 7)
    = result (terminate example_sys table_world 7)
  ∧ result (resume OtherPlatform example_sys table_world 7)
    = result (terminate example_sys table_world 7)
  ∧ ¬ distinct_from_failed_delivery
        (result (suspend OtherPlatform example_sys table_world 7))
  ∧ ¬ distinct_from_failed_delivery
        (result (resume OtherPlatform example_sys table_world 7)).
Proof.
  split; [reflexivity|]. split; [vm_compute; reflexivity|].
  split; [reflexivity|]. split; [reflexivity|].
  split; intros Hdistinct;
    apply (Hdistinct table_world 7 (SIGTERM example_sys)); try discriminate;
    vm_compute; reflexivity.
Qed.

(** C7, amended.  On a build that is not for QNX, [suspend] and [resume]
    fail for every PID: they return [false], never [true], which is the
    value every failed signal delivery returns too; they send no signal at
    all (so no stop, continue or terminate signal); and they are not silent:
    each writes the line that says the operation is not supported, which no
    failed signal delivery writes.  The capability gap shows in that line,
    not in the value returned. *)
Theorem suspend_resume_unsupported sys w pid :
  suspend OtherPlatform sys w pid = ([EvStderr suspend_unsupported], false)
  ∧ resume OtherPlatform sys w pid = ([EvStderr resume_unsupported], false)
  ∧ (∀ p sig, (EvSignal p sig ∉ trace (suspend OtherPlatform sys w pid))
              ∧ (EvSignal p sig ∉ trace (resume OtherPlatform sys w pid)))
  ∧ (∀ p sig reason,
       suspend_unsupported ≠ signal_failed p sig reason
       ∧ resume_unsupported ≠ signal_failed p sig reason)
  ∧ (∀ w' p sig,
       kernel_kill w' p sig ≠ None →
       result (suspend OtherPlatform sys w pid) = result (sendSignal w' p sig)
       ∧ result (resume OtherPlatform sys w pid) = result (sendSignal w' p sig)
       ∧ trace (suspend OtherPlatform sys w pid) ≠ trace (sendSignal w' p sig)
       ∧ trace (resume OtherPlatform sys w pid) ≠ trace (sendSignal w' p sig)).
Proof.
  split; [reflexivity|]. split; [reflexivity|]. split; [|split].
  - intros p sig. split; by intros [[=]|[]%elem_of_nil]%elem_of_cons.
  - intros p sig reason. split; discriminate.
  - intros w' p sig Hfail. unfold sendSignal. unfold_io.
    destruct (kernel_kill w' p sig) as [reason|]; [|done]. cbn.
    repeat split; discriminate.
Qed.

(** Against the failed termination of process 7 of [table_world]: the
    same value, another trace. *)
Lemma suspend_resume_unsupported_witness :
  result (suspend OtherPlatform example_sys table_world 100)
  = result (sendSignal table_world 7 15)
  ∧ result (resume OtherPlatform example_sys table_world 100)
    = result (sendSignal table_world 7 15)
  ∧ trace (suspend OtherPlatform example_sys table_world 100)
    ≠ trace (sendSignal table_world 7 15)
  ∧ trace (resume OtherPlatform example_sys table_world 100)
    ≠ trace (sendSignal table_world 7 15).
Proof.
  apply (proj2 (proj2 (proj2 (proj2
           (suspend_resume_unsupported example_sys table_world 100))))).
  vm_compute. discriminate.
Defined.

(** ** Processor usage *)

(** C8. Whenever [getProcessInfo] returns a [ProcessInfo], its
    [cpu_usage] lies between 0.0 and 1.0; it is one of the two constants
    0.0 and 0.5, not a measurement. *)
Theorem getProcessInfo_cpu_usage_range plat sys w pid info :
  result (getProcessInfo plat sys w pid) = Some info →
  (0 <= cpu_usage info)%Q ∧ (cpu_usage info <= 1)%Q
  ∧ (cpu_usage info = 0%Q ∨ cpu_usage info = (1 # 2)%Q).
Proof.
  unfold getProcessInfo. rewrite exists_eq. unfold_io.
  destruct (bool_decide _); cbn; [|discriminate].
  destruct plat; cbn; [|discriminate].
  destruct (fs w !! proc_path pid "status") as [st|]; cbn;
    [destruct (stream_read _ st)|];
    (destruct (fs w !! proc_path pid "stat") as [content|];
     [destruct (String.eqb content "")|]);
    intros [= <-]; cbn [cpu_usage negb];
    (split; [|split]; [compute; discriminate | compute; discriminate | auto]).
Qed.

Lemma getProcessInfo_cpu_usage_range_witness :
  result (getProcessInfo QNXNTO example_sys table_world 100)
  = Some {| cpu_usage := 1 # 2; memory_usage := 4096 |}
  ∧ (0 <= 1 # 2)%Q ∧ (1 # 2 <= 1)%Q.
Proof.
  assert (result (getProcessInfo QNXNTO example_sys table_world 100)
          = Some {| cpu_usage := 1 # 2; memory_usage := 4096 |}) as Hinfo.
  { vm_compute. reflexivity. }
  destruct (getProcessInfo_cpu_usage_range _ _ _ _ _ Hinfo) as (Hlo & Hhi & _).
  split; [exact Hinfo|]. split; [exact Hlo | exact Hhi].
Defined.

(** C9. On a build that is not for QNX, [getProcessInfo] returns absent
    for every PID, whether or not it passes the existence check: the probe
    is all it does and no record is read.  What the caller gets is what
    any build gives for a PID that fails the existence check, so the two
    outcomes cannot be told apart. *)
Theorem getProcessInfo_other_platform sys w pid :
  getProcessInfo OtherPlatform sys w pid = ([EvSignal pid 0], None)
  ∧ (∀ path, EvOpen path ∉ trace (getProcessInfo OtherPlatform sys w pid))
  ∧ (∀ q, result (getProcessInfo OtherPlatform sys w pid)
          = result (getProcessInfo OtherPlatform sys w q))
  ∧ (∀ plat' sys' w' q,
       result (exists_ w' q) = false →
       result (getProcessInfo OtherPlatform sys w pid)
       = result (getProcessInfo plat' sys' w' q)).
Proof.
  rewrite getProcessInfo_other. repeat split.
  - by intros path [[=]|[]%elem_of_nil]%elem_of_cons.
  - intros q. by rewrite getProcessInfo_other.
  - intros plat' sys' w' q Hdead. by rewrite (getProcessInfo_dead _ _ _ _ Hdead).
Qed.

(** A live PID on the other platform: process 100 of [table_world] passes
    the existence check and still gets absent. *)
Example getProcessInfo_other_platform_live :
  result (exists_ table_world 100) = true
  ∧ getProcessInfo OtherPlatform example_sys table_world 100
    = ([EvSignal 100 0], None).
Proof. split; vm_compute; reflexivity. Qed.

(** * Further properties: the login file *)

(** ** Strings *)

Lemma string_app_cons c s t : String c s +:+ t = String c (s +:+ t).
Proof. reflexivity. Qed.

Lemma string_app_assoc s t u : (s +:+ t) +:+ u = s +:+ (t +:+ u).
Proof.
  induction s as [|c s IH]; [done|]. rewrite !string_app_cons. by f_equal.
Qed.

Lemma string_app_length s t :
  String.length (s +:+ t) = (String.length s + String.length t)%nat.
Proof.
  induction s as [|c s IH]; [done|]. rewrite string_app_cons. cbn. by f_equal.
Qed.

Lemma list_ascii_app s t :
  list_ascii_of_string (s +:+ t)
  = list_ascii_of_string s ++ list_ascii_of_string t.
Proof.
  induction s as [|c s IH]; [done|]. rewrite string_app_cons. cbn. by f_equal.
Qed.

Lemma substr_from_app pre r : substr_from (String.length pre) (pre +:+ r) = r.
Proof.
  induction pre as [|c pre IH]; [by destruct r|].
  rewrite string_app_cons. cbn. exact IH.
Qed.

Lemma substring_app pre mid r :
  substring (String.length pre) (String.length mid) (pre +:+ mid +:+ r) = mid.
Proof.
  induction pre as [|c pre IH].
  - change ("" +:+ mid +:+ r) with (mid +:+ r). cbn [String.length].
    induction mid as [|d mid IHm]; [by destruct r|].
    rewrite string_app_cons. cbn. by f_equal.
  - rewrite string_app_cons. cbn. exact IH.
Qed.

Lemma find_char_app c u r :
  c ∉ list_ascii_of_string u →
  find_char c (u +:+ String c r) = Some (String.length u).
Proof.
  induction u as [|a u IH]; intros Hc.
  - change ("" +:+ String c r) with (String c r). cbn.
    by rewrite Ascii.eqb_refl.
  - rewrite string_app_cons. cbn.
    destruct (Ascii.eqb_spec a c) as [->|_].
    + destruct Hc. left.
    + rewrite IH; [done|]. intros Hin. apply Hc. by right.
Qed.

Lemma find_char_Some c s n :
  find_char c s = Some n →
  ∃ u r, s = u +:+ String c r ∧ String.length u = n
         ∧ c ∉ list_ascii_of_string u.
Proof.
  revert n. induction s as [|a s IH]; intros n; cbn; [discriminate|].
  destruct (Ascii.eqb_spec a c) as [->|Hne].
  - intros [= <-]. exists "", s. repeat split. intros []%elem_of_nil.
  - destruct (find_char c s) as [m|]; [|discriminate]. intros [= <-].
    destruct (IH m eq_refl) as (u & r & -> & Hlen & Hc).
    exists (String a u), r. repeat split.
    + cbn. by f_equal.
    + intros [Heq|Hin]%elem_of_cons; [congruence|done].
Qed.

Lemma find_char_None c s :
  find_char c s = None ↔ c ∉ list_ascii_of_string s.
Proof.
  induction s as [|a s IH]; cbn.
  - split; [intros _ []%elem_of_nil|done].
  - destruct (Ascii.eqb_spec a c) as [->|Hne].
    + split; [discriminate|]. intros Hc. destruct Hc. left.
    + destruct (find_char c s); cbn.
      * split; [discriminate|]. intros Hc.
        assert (c ∉ list_ascii_of_string s) as Hc' by (intros ?; apply Hc; by right).
        by apply IH in Hc'.
      * split; [|done]. intros _ [Heq|Hin]%elem_of_cons; [congruence|].
        by apply (proj1 IH).
Qed.

Lemma sv_find_app c pre r :
  sv_find c (pre +:+ r) (String.length pre)
  = ((λ i, String.length pre + i)%nat <$> find_char c r).
Proof.
  unfold sv_find. rewrite string_app_length, substr_from_app.
  by rewrite (proj2 (Nat.leb_le _ _)) by lia.
Qed.

Lemma sv_find_0 c s : sv_find c s 0 = find_char c s.
Proof.
  unfold sv_find. cbn. destruct s; cbn; [done|].
  by destruct (_ =? _)%char, (find_char c s).
Qed.

(** Number of occurrences of [c] in [s]. *)
Lemma find_char_count c s :
  find_char c s = None → count_occ ascii_dec (list_ascii_of_string s) c = O.
Proof.
  intros Hc%find_char_None. apply count_occ_not_In.
  by rewrite <- list_elem_of_In.
Qed.

(** ** [FromString] *)

(** What [FromString] makes of the type field [t]. *)
Lemma FromString_fields' u h s t :
  ":"%char ∉ list_ascii_of_string u →
  ":"%char ∉ list_ascii_of_string h →
  ":"%char ∉ list_ascii_of_string s →
  FromString (u +:+ ":" +:+ h +:+ ":" +:+ s +:+ ":" +:+ t)
  = if (0 >? from_chars t 0) || (from_chars t 0 >? 1) then None
    else Some {| username := u; hash := h; salt := s;
                 type := if from_chars t 0 =? 0 then VIEWER else ADMIN |}.
Proof.
  intros Hu Hh Hs. unfold FromString.
  rewrite sv_find_0.
  change (u +:+ ":" +:+ h +:+ ":" +:+ s +:+ ":" +:+ t)
    with (u +:+ String ":" (h +:+ ":" +:+ s +:+ ":" +:+ t)) at 1.
  rewrite (find_char_app _ _ _ Hu).
  (* username *)
  assert (substring 0 (String.length u)
            (u +:+ ":" +:+ h +:+ ":" +:+ s +:+ ":" +:+ t) = u) as ->.
  { apply (substring_app "" u). }
  (* second colon *)
  set (p1 := u +:+ ":").
  assert (u +:+ ":" +:+ h +:+ ":" +:+ s +:+ ":" +:+ t
          = p1 +:+ h +:+ ":" +:+ s +:+ ":" +:+ t) as E1.
  { unfold p1. by rewrite string_app_assoc. }
  assert (S (String.length u) = String.length p1) as L1.
  { unfold p1. rewrite string_app_length. cbn. lia. }
  rewrite E1, L1. rewrite sv_find_app.
  change (h +:+ ":" +:+ s +:+ ":" +:+ t)
    with (h +:+ String ":" (s +:+ ":" +:+ t)) at 1.
  rewrite (find_char_app _ _ _ Hh). cbn [fmap option_fmap option_map].
  replace (String.length p1 + String.length h - String.length p1)%nat
    with (String.length h) by lia.
  rewrite substring_app.
  (* third colon *)
  set (p2 := p1 +:+ h +:+ ":").
  assert (p1 +:+ h +:+ ":" +:+ s +:+ ":" +:+ t = p2 +:+ s +:+ ":" +:+ t) as E2.
  { unfold p2. by rewrite !string_app_assoc. }
  assert (S (String.length p1 + String.length h) = String.length p2) as L2.
  { unfold p2. rewrite !string_app_length. cbn. lia. }
  rewrite E2, L2. rewrite sv_find_app.
  change (s +:+ ":" +:+ t) with (s +:+ String ":" t) at 1.
  rewrite (find_char_app _ _ _ Hs). cbn [fmap option_fmap option_map].
  replace (String.length p2 + String.length s - String.length p2)%nat
    with (String.length s) by lia.
  rewrite substring_app.
  (* type field *)
  set (p3 := p2 +:+ s +:+ ":").
  assert (p2 +:+ s +:+ ":" +:+ t = p3 +:+ t) as E3.
  { unfold p3. by rewrite !string_app_assoc. }
  assert (S (String.length p2 + String.length s) = String.length p3) as L3.
  { unfold p3. rewrite !string_app_length. cbn. lia. }
  rewrite E3, L3, substr_from_app. reflexivity.
Qed.

Lemma string_app_inv a b a' b' :
  a +:+ b = a' +:+ b' → String.length a = String.length a' → a = a' ∧ b = b'.
Proof.
  revert a'. induction a as [|c a IH]; intros [|c' a']; cbn; try discriminate.
  - done.
  - rewrite !string_app_cons. intros [= -> Heq] [= Hlen].
    destruct (IH _ Heq Hlen) as [-> ->]. done.
Qed.

Lemma substr_from_split pos s :
  (pos ≤ String.length s)%nat →
  ∃ pre, s = pre +:+ substr_from pos s ∧ String.length pre = pos.
Proof.
  revert s. induction pos as [|pos IH]; intros s Hlen.
  - exists "". by destruct s.
  - destruct s as [|c s]; cbn in Hlen; [lia|].
    destruct (IH s) as (pre & Heq & Hpre); [lia|].
    exists (String c pre). split.
    + rewrite string_app_cons. cbn [substr_from]. by f_equal.
    + cbn. by f_equal.
Qed.

Lemma sv_find_Some c line pos e :
  sv_find c line pos = Some e →
  ∃ pre mid r,
    line = pre +:+ mid +:+ String c r
    ∧ String.length pre = pos
    ∧ e = (pos + String.length mid)%nat
    ∧ c ∉ list_ascii_of_string mid.
Proof.
  unfold sv_find. destruct (Nat.leb_spec pos (String.length line)) as [Hle|_];
    [|discriminate].
  destruct (find_char c (substr_from pos line)) as [n|] eqn:Hfind; [|discriminate].
  intros [= <-].
  destruct (substr_from_split _ _ Hle) as (pre & Hline & Hpre).
  destruct (find_char_Some _ _ _ Hfind) as (mid & r & Hrest & Hmid & Hc).
  exists pre, mid, r. rewrite Hrest in Hline. repeat split; try done.
  by rewrite Hmid.
Qed.

(** A line that [FromString] accepts is three fields without a colon, each
    followed by a colon, and a rest. *)
Lemma FromString_Some_split line e :
  FromString line = Some e →
  ∃ u h s t,
    line = u +:+ ":" +:+ h +:+ ":" +:+ s +:+ ":" +:+ t
    ∧ (":"%char ∉ list_ascii_of_string u)
    ∧ (":"%char ∉ list_ascii_of_string h)
    ∧ (":"%char ∉ list_ascii_of_string s).
Proof.
  unfold FromString.
  destruct (sv_find ":" line 0) as [e1|] eqn:F1; [|discriminate].
  destruct (sv_find ":" line (S e1)) as [e2|] eqn:F2; [|discriminate].
  destruct (sv_find ":" line (S e2)) as [e3|] eqn:F3; [|discriminate].
  intros _.
  apply sv_find_Some in F1 as (p0 & u & r1 & E1 & L0 & -> & Hu).
  destruct p0; [|discriminate]. change ("" +:+ u +:+ String ":" r1)
    with (u +:+ String ":" r1) in E1. cbn [Nat.add] in *.
  apply sv_find_Some in F2 as (p1 & h & r2 & E2 & L1 & -> & Hh).
  assert (p1 = u +:+ ":" ∧ r1 = h +:+ String ":" r2) as [-> ->].
  { assert ((u +:+ ":") +:+ r1 = p1 +:+ h +:+ String ":" r2) as Heq.
    { rewrite string_app_assoc. change (":" +:+ r1) with (String ":" r1).
      congruence. }
    apply string_app_inv in Heq as [<- <-]; [done|].
    rewrite string_app_length. cbn. lia. }
  apply sv_find_Some in F3 as (p2 & s & t & E3 & L2 & -> & Hs).
  assert (r2 = s +:+ String ":" t) as ->.
  { assert (((u +:+ ":") +:+ h +:+ ":") +:+ r2 = p2 +:+ s +:+ String ":" t) as Heq.
    { rewrite <- E3, E2. rewrite !string_app_assoc. reflexivity. }
    apply string_app_inv in Heq as [_ <-]; [done|].
    rewrite L2, !string_app_length. cbn. lia. }
  exists u, h, s, t. by rewrite E1.
Qed.

Lemma from_chars_digit_led t :
  starts_with_digit t = true →
  from_chars t 0
  = if digits_value 0 t <=? INT_MAX then digits_value 0 t else 0.
Proof.
  destruct t as [|c t]; [discriminate|]. cbn [starts_with_digit]. intros Hc.
  unfold from_chars.
  assert (match String c t with
          | String "-" r => (true, r)
          | _ => (false, String c t)
          end = (false, String c t)) as ->.
  { destruct c as [[] [] [] [] [] [] [] []]; try reflexivity; discriminate. }
  cbn [starts_with_digit]. rewrite Hc.
  assert ((INT_MIN <=? digits_value 0 (String c t)) = true) as ->; [|done].
  apply Z.leb_le. pose proof (digits_value_nonneg (String c t) 0).
  unfold INT_MIN. lia.
Qed.

Lemma from_chars_no_number t :
  starts_with_digit t = false →
  (∀ r, t ≠ String "-" r) →
  from_chars t 0 = 0.
Proof.
  intros Hd Hm. unfold from_chars.
  assert (match t with
          | String "-" r => (true, r)
          | _ => (false, t)
          end = (false, t)) as ->.
  { destruct t as [|c r]; [done|].
    destruct c as [[] [] [] [] [] [] [] []]; try reflexivity.
    by destruct (Hm r). }
  by rewrite Hd.
Qed.

(** The digit that stands for a user type in the login file. *)
Lemma FromString_type_digit u h s (ty : UserType) :
  ":"%char ∉ list_ascii_of_string u →
  ":"%char ∉ list_ascii_of_string h →
  ":"%char ∉ list_ascii_of_string s →
  FromString (u +:+ ":" +:+ h +:+ ":" +:+ s +:+ ":"
                +:+ match ty with VIEWER => "0" | ADMIN => "1" end)
  = Some {| username := u; hash := h; salt := s; type := ty |}.
Proof.
  intros Hu Hh Hs. rewrite (FromString_fields' _ _ _ _ Hu Hh Hs).
  by destruct ty.
Qed.

(** X1. Round trip of the login file format: the line
    [username:hash:salt:digit], with [0] for a viewer and [1] for an
    administrator, is parsed back into the entry it was written from,
    provided none of the three strings holds a colon. *)
Theorem FromString_round_trip (e : UserEntry) :
  ":"%char ∉ list_ascii_of_string (username e) →
  ":"%char ∉ list_ascii_of_string (hash e) →
  ":"%char ∉ list_ascii_of_string (salt e) →
  FromString (username e +:+ ":" +:+ hash e +:+ ":" +:+ salt e +:+ ":"
                +:+ match type e with VIEWER => "0" | ADMIN => "1" end)
  = Some e.
Proof.
  intros Hu Hh Hs. rewrite (FromString_type_digit _ _ _ _ Hu Hh Hs).
  by destruct e.
Qed.

Lemma FromString_round_trip_witness :
  FromString "alice:@S@X@ab$secret:@S@X@ab:1"
  = Some {| username := "alice"; hash := "@S@X@ab$secret";
            salt := "@S@X@ab"; type := ADMIN |}.
Proof.
  apply (FromString_round_trip
           {| username := "alice"; hash := "@S@X@ab$secret";
              salt := "@S@X@ab"; type := ADMIN |});
    cbn; intros Hin;
    repeat (apply elem_of_cons in Hin as [[=]|Hin]);
    by apply elem_of_nil in Hin.
Defined.

(** X2. What an accepted line looks like: when [FromString] returns an
    entry, the line is [username:hash:salt:rest] for that entry's three
    strings, none of which holds a colon, and the entry's type is the one
    the leading number of [rest] selects (0 a viewer, 1 an
    administrator). *)
Theorem FromString_Some_line line e :
  FromString line = Some e →
  ∃ rest,
    line = username e +:+ ":" +:+ hash e +:+ ":" +:+ salt e +:+ ":" +:+ rest
    ∧ (":"%char ∉ list_ascii_of_string (username e))
    ∧ (":"%char ∉ list_ascii_of_string (hash e))
    ∧ (":"%char ∉ list_ascii_of_string (salt e))
    ∧ from_chars rest 0 = match type e with VIEWER => 0 | ADMIN => 1 end.
Proof.
  intros Hparse.
  destruct (FromString_Some_split _ _ Hparse) as (u & h & s & t & -> & Hu & Hh & Hs).
  rewrite (FromString_fields' _ _ _ _ Hu Hh Hs) in Hparse.
  destruct ((0 >? from_chars t 0) || (from_chars t 0 >? 1)) eqn:Hrange;
    [discriminate|].
  injection Hparse as <-. cbn [username hash salt type].
  exists t. repeat split; try done.
  apply orb_false_iff in Hrange as [H0 H1].
  destruct (Z.eqb_spec (from_chars t 0) 0) as [->|Hne]; [done|].
  rewrite Z.gtb_ltb in H0, H1.
  apply Z.ltb_ge in H0. apply Z.ltb_ge in H1. lia.
Qed.

Lemma FromString_Some_line_witness :
  ∃ rest,
    "bob:h:s:0:trailing"
    = "bob" +:+ ":" +:+ "h" +:+ ":" +:+ "s" +:+ ":" +:+ rest
    ∧ (":"%char ∉ list_ascii_of_string "bob")
    ∧ (":"%char ∉ list_ascii_of_string "h")
    ∧ (":"%char ∉ list_ascii_of_string "s")
    ∧ from_chars rest 0 = 0.
Proof.
  apply (FromString_Some_line "bob:h:s:0:trailing"
           {| username := "bob"; hash := "h"; salt := "s"; type := VIEWER |}).
  vm_compute. reflexivity.
Defined.

(** X3. A line with fewer than three colons is rejected. *)
Theorem FromString_too_few_fields line :
  (count_occ ascii_dec (list_ascii_of_string line) ":"%char < 3)%nat →
  FromString line = None.
Proof.
  intros Hcount. destruct (FromString line) as [e|] eqn:Hparse; [|done].
  destruct (FromString_Some_split _ _ Hparse) as (u & h & s & t & -> & _).
  exfalso. revert Hcount.
  change (u +:+ ":" +:+ h +:+ ":" +:+ s +:+ ":" +:+ t)
    with (u +:+ String ":" (h +:+ String ":" (s +:+ String ":" t))).
  rewrite !list_ascii_app. cbn [list_ascii_of_string].
  rewrite !count_occ_app, !count_occ_cons_eq by done.
  rewrite !list_ascii_app. cbn [list_ascii_of_string].
  rewrite !count_occ_app, !count_occ_cons_eq by done.
  rewrite !list_ascii_app. cbn [list_ascii_of_string].
  rewrite !count_occ_app, !count_occ_cons_eq by done.
  lia.
Qed.

Lemma FromString_too_few_fields_witness :
  FromString "alice:hash:salt" = None.
Proof.
  apply (FromString_too_few_fields "alice:hash:salt").
  vm_compute. lia.
Defined.

(** X4. A type field that is no number is taken for a viewer, not
    rejected: this holds when the field is empty or begins with neither a
    digit nor a minus sign, and also when it begins with a number too large
    for an [int]. *)
Theorem FromString_type_defaults_to_viewer u h s t :
  ":"%char ∉ list_ascii_of_string u →
  ":"%char ∉ list_ascii_of_string h →
  ":"%char ∉ list_ascii_of_string s →
  (starts_with_digit t = false ∧ ∀ r, t ≠ String "-" r)
  ∨ (starts_with_digit t = true ∧ INT_MAX < digits_value 0 t) →
  FromString (u +:+ ":" +:+ h +:+ ":" +:+ s +:+ ":" +:+ t)
  = Some {| username := u; hash := h; salt := s; type := VIEWER |}.
Proof.
  intros Hu Hh Hs Ht. rewrite (FromString_fields' _ _ _ _ Hu Hh Hs).
  assert (from_chars t 0 = 0) as ->; [|done].
  destruct Ht as [[Hd Hm]|[Hd Hbig]].
  - by apply from_chars_no_number.
  - rewrite (from_chars_digit_led _ Hd).
    by rewrite (proj2 (Z.leb_gt _ _) Hbig).
Qed.

Lemma FromString_type_defaults_to_viewer_witness :
  FromString "eve:h:s:admin"
  = Some {| username := "eve"; hash := "h"; salt := "s"; type := VIEWER |}
  ∧ FromString "eve:h:s:4294967297"
    = Some {| username := "eve"; hash := "h"; salt := "s"; type := VIEWER |}.
Proof.
  assert (∀ x : string, x ∈ ["eve"; "h"; "s"] →
            ":"%char ∉ list_ascii_of_string x) as Hfields.
  { intros x Hx Hin.
    repeat (apply elem_of_cons in Hx as [->|Hx];
            [cbn in Hin; repeat (apply elem_of_cons in Hin as [[=]|Hin]);
             by apply elem_of_nil in Hin|]).
    by apply elem_of_nil in Hx. }
  split.
  - apply (FromString_type_defaults_to_viewer "eve" "h" "s" "admin");
      try (apply Hfields; set_solver).
    left. split; [reflexivity|discriminate].
  - apply (FromString_type_defaults_to_viewer "eve" "h" "s" "4294967297");
      try (apply Hfields; set_solver).
    right. split; [reflexivity|]. vm_compute. reflexivity.
Defined.

(** X5. A type field that begins with digits is read by their value and
    whatever follows them is ignored: value 0 gives a viewer, value 1 an
    administrator, and any other value that fits an [int] rejects the
    line. *)
Theorem FromString_type_by_leading_digits u h s t :
  ":"%char ∉ list_ascii_of_string u →
  ":"%char ∉ list_ascii_of_string h →
  ":"%char ∉ list_ascii_of_string s →
  starts_with_digit t = true →
  digits_value 0 t ≤ INT_MAX →
  FromString (u +:+ ":" +:+ h +:+ ":" +:+ s +:+ ":" +:+ t)
  = if digits_value 0 t =? 0
    then Some {| username := u; hash := h; salt := s; type := VIEWER |}
    else if digits_value 0 t =? 1
    then Some {| username := u; hash := h; salt := s; type := ADMIN |}
    else None.
Proof.
  intros Hu Hh Hs Hd Hfit. rewrite (FromString_fields' _ _ _ _ Hu Hh Hs).
  rewrite (from_chars_digit_led _ Hd), (proj2 (Z.leb_le _ _) Hfit).
  pose proof (digits_value_nonneg t 0 ltac:(lia)) as Hnn.
  destruct (Z.eqb_spec (digits_value 0 t) 0) as [->|H0]; [done|].
  destruct (Z.eqb_spec (digits_value 0 t) 1) as [->|H1]; [done|].
  assert ((digits_value 0 t >? 1) = true) as ->.
  { rewrite Z.gtb_ltb. apply Z.ltb_lt. lia. }
  by rewrite orb_true_r.
Qed.

Lemma FromString_type_by_leading_digits_witness :
  FromString "root:h:s:01 (admin)"
  = Some {| username := "root"; hash := "h"; salt := "s"; type := ADMIN |}.
Proof.
  apply (FromString_type_by_leading_digits "root" "h" "s" "01 (admin)").
  1-3: cbn; intros Hin; repeat (apply elem_of_cons in Hin as [[=]|Hin]);
       by apply elem_of_nil in Hin.
  - reflexivity.
  - vm_compute. discriminate.
Defined.

(** ** [ValidateLogin] *)

Lemma result_bind {A B} (m : io A) (k : A → io B) :
  result (m ≫= k) = result (k (result m)).
Proof.
  unfold result, mbind, io_bind. destruct m as [t a]; cbn.
  by destruct (k a).
Qed.

Lemma read_lines_no_newline content line :
  line ∈ read_lines content → LF ∉ list_ascii_of_string line.
Proof.
  revert line. induction content as [|c s IH]; intros line; cbn.
  - intros []%elem_of_nil.
  - destruct (Ascii.eqb_spec c LF) as [->|Hne].
    + intros [->|Hin]%elem_of_cons; [intros []%elem_of_nil|by apply IH].
    + destruct (read_lines s) as [|l ls].
      * intros ->%list_elem_of_singleton. cbn.
        intros [Heq|[]%elem_of_nil]%elem_of_cons. congruence.
      * intros [->|Hin]%elem_of_cons.
        -- cbn. intros [Heq|Hin]%elem_of_cons; [congruence|].
           apply (IH l); [left|done].
        -- apply IH. by right.
Qed.

(** The first line of [read_lines] is the line a single [getline] reads. *)
Lemma read_lines_first content :
  content ≠ "" → head (read_lines content) = Some (first_line content).
Proof.
  induction content as [|c s IH]; [done|]. intros _. cbn.
  destruct (Ascii.eqb_spec c LF) as [->|Hne]; [done|].
  destruct s as [|d s']; [done|].
  specialize (IH ltac:(done)).
  destruct (read_lines (String d s')) as [|l ls]; [done|].
  cbn in IH. injection IH as ->. done.
Qed.

Lemma validate_lines_sound env name password lines ty :
  result (validate_lines env name password lines) = Some ty →
  ∃ line e,
    line ∈ lines ∧ is_comment line = false
    ∧ FromString line = Some e ∧ username e = name ∧ type e = ty
    ∧ generate_hash env password (salt e) = Some (hash e).
Proof.
  induction lines as [|line rest IH]; cbn [validate_lines]; [discriminate|].
  assert (result (validate_lines env name password rest) = Some ty →
          ∃ line0 e, line0 ∈ line :: rest ∧ is_comment line0 = false
            ∧ FromString line0 = Some e ∧ username e = name ∧ type e = ty
            ∧ generate_hash env password (salt e) = Some (hash e)) as IH'.
  { intros (l & e & Hin & H)%IH. exists l, e. split; [by right|done]. }
  destruct (is_comment line) eqn:Hcomment; [done|].
  destruct (FromString line) as [e|] eqn:Hparse.
  - destruct (String.eqb_spec (username e) name) as [Hname|_]; cbn; [|done].
    destruct (generate_hash env password (salt e)) as [generated|] eqn:Hgen;
      [|discriminate].
    destruct (String.eqb_spec generated (hash e)) as [->|_]; [|discriminate].
    intros [= <-]. exists line, e. repeat split; try done. left.
  - rewrite result_bind. exact IH'.
Qed.

Lemma validate_lines_first_match env name password before line after e :
  (∀ l e', l ∈ before → is_comment l = false →
           FromString l = Some e' → username e' ≠ name) →
  is_comment line = false →
  FromString line = Some e →
  username e = name →
  result (validate_lines env name password (before ++ line :: after))
  = if bool_decide (generate_hash env password (salt e) = Some (hash e))
    then Some (type e) else None.
Proof.
  intros Hbefore Hcomment Hparse Hname.
  induction before as [|l before IH]; cbn [app validate_lines].
  - rewrite Hcomment, Hparse, Hname, String.eqb_refl. cbn.
    destruct (generate_hash env password (salt e)) as [generated|];
      [|by rewrite bool_decide_eq_false_2].
    destruct (String.eqb_spec generated (hash e)) as [->|Hne].
    + by rewrite bool_decide_eq_true_2.
    + rewrite bool_decide_eq_false_2; [done|congruence].
  - assert (result (validate_lines env name password (before ++ line :: after))
            = if bool_decide (generate_hash env password (salt e) = Some (hash e))
              then Some (type e) else None) as IH'.
    { apply IH. intros l0 e' Hin. apply Hbefore. by right. }
    destruct (is_comment l) eqn:Hc; [done|].
    destruct (FromString l) as [e'|] eqn:Hp.
    + assert (username e' ≠ name) as Hother by (apply (Hbefore l); [left|done..]).
      by rewrite (proj2 (String.eqb_neq _ _) Hother).
    + by rewrite result_bind.
Qed.

Lemma ValidateLogin_Some env w name password ty :
  result (ValidateLogin env w name password) = inr (Some ty) →
  ∃ content,
    fs_exists env (LOGIN_FILE env) = inr true
    ∧ fs w !! LOGIN_FILE env = Some content
    ∧ result (validate_lines env name password (read_lines content)) = Some ty.
Proof.
  unfold ValidateLogin.
  destruct (fs_exists env (LOGIN_FILE env)) as [msg|[|]]; [discriminate| |discriminate].
  rewrite result_bind. unfold ifstream at 1. rewrite result_bind. cbn [result snd mret io_ret].
  destruct (fs w !! LOGIN_FILE env) as [content|]; [|discriminate].
  rewrite result_bind. cbn. intros [= Hres]. by exists content.
Qed.

(** X6. A login succeeds only on the strength of a line of the login
    file: when [ValidateLogin] returns a user type, the file holds a line
    that is no comment, parses to an entry with the given user name and the
    returned type, and whose stored hash is what [crypt] makes of the given
    password with that entry's salt. *)
Theorem ValidateLogin_sound env w name password ty :
  result (ValidateLogin env w name password) = inr (Some ty) →
  ∃ content line e,
    fs w !! LOGIN_FILE env = Some content
    ∧ line ∈ read_lines content
    ∧ is_comment line = false
    ∧ FromString line = Some e
    ∧ username e = name
    ∧ type e = ty
    ∧ crypt env (c_str password) (c_str (salt e)) = Some (hash e).
Proof.
  intros (content & _ & Hfile & Hres)%ValidateLogin_Some.
  apply validate_lines_sound in Hres as (line & e & Hin & Hc & Hp & Hn & Ht & Hh).
  by exists content, line, e.
Qed.

Lemma ValidateLogin_sound_witness :
  ∃ content line e,
    fs login_world !! LOGIN_FILE example_env = Some content
    ∧ line ∈ read_lines content
    ∧ is_comment line = false
    ∧ FromString line = Some e
    ∧ username e = "bob"
    ∧ type e = VIEWER
    ∧ crypt example_env (c_str "hunter2") (c_str (salt e)) = Some (hash e).
Proof.
  apply (ValidateLogin_sound example_env login_world "bob" "hunter2" VIEWER).
  vm_compute. reflexivity.
Defined.

(** X7. The first entry with the user's name decides.  Comments, lines
    that do not parse and other users' entries before it are passed over;
    the result is that entry's type when its hash matches and absent when it
    does not, and no later line is looked at, so a second entry for the
    same name never takes effect. *)
Theorem ValidateLogin_first_entry_decides
    env w name password content before line after e :
  fs_exists env (LOGIN_FILE env) = inr true →
  fs w !! LOGIN_FILE env = Some content →
  read_lines content = before ++ line :: after →
  (∀ l e', l ∈ before → is_comment l = false →
           FromString l = Some e' → username e' ≠ name) →
  is_comment line = false →
  FromString line = Some e →
  username e = name →
  result (ValidateLogin env w name password)
  = inr (if bool_decide (generate_hash env password (salt e) = Some (hash e))
         then Some (type e) else None).
Proof.
  intros Hexists Hfile Hlines Hbefore Hcomment Hparse Hname.
  unfold ValidateLogin. rewrite Hexists.
  rewrite result_bind. unfold ifstream at 1. rewrite result_bind.
  cbn [result snd mret io_ret]. rewrite Hfile, result_bind. cbn [result snd mret io_ret].
  f_equal. fold (result (validate_lines env name password (read_lines content))).
  rewrite Hlines. by apply validate_lines_first_match.
Qed.

Lemma ValidateLogin_first_entry_decides_witness :
  result (ValidateLogin example_env login_world "alice" "other") = inr None
  ∧ result (ValidateLogin example_env login_world "alice" "secret")
    = inr (Some ADMIN).
Proof.
  assert (∀ password,
            result (ValidateLogin example_env login_world "alice" password)
            = inr (if bool_decide
                        (generate_hash example_env password "@S@X@ab"
                         = Some "@S@X@ab$secret")
                   then Some ADMIN else None)) as Hfirst.
  { intros password.
    apply (ValidateLogin_first_entry_decides example_env login_world
             "alice" password
             ("# users" +:+ String LF
               ("alice:@S@X@ab$secret:@S@X@ab:1" +:+ String LF
               ("bob:@S@X@cd$hunter2:@S@X@cd:0" +:+ String LF
               ("broken line" +:+ String LF
               ("alice:@S@X@zz$other:@S@X@zz:0" +:+ String LF "")))))
             ["# users"]
             "alice:@S@X@ab$secret:@S@X@ab:1"
             ["bob:@S@X@cd$hunter2:@S@X@cd:0"; "broken line";
              "alice:@S@X@zz$other:@S@X@zz:0"]
             {| username := "alice"; hash := "@S@X@ab$secret";
                salt := "@S@X@ab"; type := ADMIN |}).
    - reflexivity.
    - vm_compute. reflexivity.
    - vm_compute. reflexivity.
    - intros l e' ->%list_elem_of_singleton. discriminate.
    - reflexivity.
    - vm_compute. reflexivity.
    - reflexivity. }
  split.
  - rewrite (Hfirst "other"). vm_compute. reflexivity.
  - rewrite (Hfirst "secret"). vm_compute. reflexivity.
Defined.

(** X8. Names that can never log in: a user name that holds a colon or a
    newline, or that begins with [#], is refused whatever the login file and
    the password are. *)
Theorem ValidateLogin_unusable_names env w name password ty :
  ":"%char ∈ list_ascii_of_string name
  ∨ LF ∈ list_ascii_of_string name
  ∨ (∃ r, name = String "#" r) →
  result (ValidateLogin env w name password) ≠ inr (Some ty).
Proof.
  intros Hname (content & _ & _ & Hres)%ValidateLogin_Some.
  apply validate_lines_sound in Hres
    as (line & e & Hin & Hcomment & Hparse & <- & _).
  destruct (FromString_Some_split _ _ Hparse)
    as (u & h & s & rest & -> & Hu & Hh & Hs).
  rewrite (FromString_fields' _ _ _ _ Hu Hh Hs) in Hparse.
  destruct (_ || _); [discriminate|]. injection Hparse as <-.
  cbn [username] in Hname.
  destruct Hname as [Hcolon|[Hnl|[r Hhash]]].
  - done.
  - apply read_lines_no_newline in Hin. apply Hin.
    rewrite list_ascii_app. apply elem_of_app. by left.
  - rewrite Hhash in Hcomment. discriminate.
Qed.

Lemma ValidateLogin_unusable_names_witness :
  result (ValidateLogin example_env login_world "# users" "secret")
  ≠ inr (Some ADMIN).
Proof.
  apply (ValidateLogin_unusable_names example_env login_world
           "# users" "secret" ADMIN).
  right. right. by exists " users".
Defined.

Lemma validate_lines_c_str env name password password' lines :
  c_str password = c_str password' →
  validate_lines env name password lines
  = validate_lines env name password' lines.
Proof.
  intros Heq. induction lines as [|line rest IH]; cbn [validate_lines]; [done|].
  rewrite IH. unfold generate_hash. by rewrite Heq.
Qed.

(** X9. Only the part of the password before its first null byte counts:
    two passwords that agree up to there are treated alike, in the answer
    and in everything the call does. *)
Theorem ValidateLogin_password_up_to_nul env w name password password' :
  c_str password = c_str password' →
  ValidateLogin env w name password = ValidateLogin env w name password'.
Proof.
  intros Heq. unfold ValidateLogin.
  destruct (fs_exists env (LOGIN_FILE env)) as [msg|[|]]; try done.
  unfold mbind at 1 3, io_bind. destruct (ifstream w (LOGIN_FILE env)) as [t [content|]];
    [|done].
  by rewrite (validate_lines_c_str _ _ _ _ _ Heq).
Qed.

Lemma ValidateLogin_password_up_to_nul_witness :
  ValidateLogin example_env login_world "alice" ("secret" +:+ String NUL "x")
  = ValidateLogin example_env login_world "alice" "secret"
  ∧ result (ValidateLogin example_env login_world "alice" "secret")
    = inr (Some ADMIN).
Proof.
  split.
  - apply (ValidateLogin_password_up_to_nul example_env login_world "alice").
    reflexivity.
  - vm_compute. reflexivity.
Defined.

(** * Further properties: the salt *)

Lemma valid_char_in_alphabet i :
  0 ≤ i < 64 → valid_char i ∈ list_ascii_of_string VALID_CHARS.
Proof.
  intros Hi.
  assert (Forall (λ j, valid_char j ∈ list_ascii_of_string VALID_CHARS)
                 (seqZ 0 64)) as Hall.
  { apply (bool_decide_unpack _). vm_compute. exact I. }
  rewrite Forall_forall in Hall. apply Hall. apply elem_of_seqZ. lia.
Qed.

Lemma land_63 x : Z.land x 63 = x mod 64.
Proof. change 63 with (Z.ones 6). by rewrite Z.land_ones. Qed.

Lemma salt_loop_length bits rand i n t :
  String.length (salt_loop bits rand i n t) = n.
Proof.
  revert i t. induction n as [|n IH]; intros i t; cbn; [done|]. by rewrite IH.
Qed.

Lemma salt_loop_alphabet bits rand i n t c :
  c ∈ list_ascii_of_string (salt_loop bits rand i n t) →
  c ∈ list_ascii_of_string VALID_CHARS.
Proof.
  revert i t. induction n as [|n IH]; intros i t; cbn [salt_loop list_ascii_of_string].
  - intros []%elem_of_nil.
  - intros [->|Hin]%elem_of_cons; [|by eapply IH].
    apply valid_char_in_alphabet. rewrite land_63.
    apply Z.mod_pos_bound. lia.
Qed.

(** X10. The shape of a salt: whatever the clock and [rand()] give,
    [generate_salt] returns the prefix [@S@X@] followed by exactly 16
    characters, each taken from the 64 characters of [VALID_CHARS]. *)
Theorem generate_salt_shape bits now rand :
  ∃ body,
    generate_salt bits now rand = "@S@X@" +:+ body
    ∧ String.length body = 16%nat
    ∧ String.length (generate_salt bits now rand) = 21%nat
    ∧ ∀ c, c ∈ list_ascii_of_string body →
           c ∈ list_ascii_of_string VALID_CHARS.
Proof.
  exists (salt_loop bits rand 0 SALT_LENGTH (now mod 2 ^ bits)).
  unfold generate_salt. split; [reflexivity|]. split; [|split].
  - apply salt_loop_length.
  - rewrite string_app_length, salt_loop_length. reflexivity.
  - intros c. apply salt_loop_alphabet.
Qed.

Lemma c_str_no_nul s : NUL ∉ list_ascii_of_string s → c_str s = s.
Proof.
  induction s as [|c s IH]; cbn; [done|]. intros Hnul.
  destruct (Ascii.eqb_spec c NUL) as [->|_].
  - destruct Hnul. left.
  - f_equal. apply IH. intros Hin. apply Hnul. by right.
Qed.

Lemma generate_salt_chars bits now rand c :
  c ∈ list_ascii_of_string (generate_salt bits now rand) →
  c ∈ list_ascii_of_string ("@S@X@" +:+ VALID_CHARS).
Proof.
  unfold generate_salt. rewrite !list_ascii_app.
  intros [Hin|Hin]%elem_of_app; apply elem_of_app; [by left|right].
  by eapply salt_loop_alphabet.
Qed.

Lemma generate_salt_avoids bits now rand c :
  c ∉ list_ascii_of_string ("@S@X@" +:+ VALID_CHARS) →
  c ∉ list_ascii_of_string (generate_salt bits now rand).
Proof. intros Hc Hin. by apply Hc, (generate_salt_chars bits now rand). Qed.

(** X11. A generated salt fits the login file: it holds no colon, no
    newline and no null byte, so a line written with it is parsed back with
    exactly that salt, and [crypt] is handed the whole of it. *)
Theorem generate_salt_in_login_line bits now rand u h ty :
  ":"%char ∉ list_ascii_of_string u →
  ":"%char ∉ list_ascii_of_string h →
  FromString (u +:+ ":" +:+ h +:+ ":" +:+ generate_salt bits now rand +:+ ":"
                +:+ match ty with VIEWER => "0" | ADMIN => "1" end)
  = Some {| username := u; hash := h;
            salt := generate_salt bits now rand; type := ty |}
  ∧ (LF ∉ list_ascii_of_string (generate_salt bits now rand))
  ∧ c_str (generate_salt bits now rand) = generate_salt bits now rand.
Proof.
  intros Hu Hh. split; [|split].
  - apply FromString_type_digit; try done.
    apply generate_salt_avoids. by apply (bool_decide_unpack _).
  - apply generate_salt_avoids. by apply (bool_decide_unpack _).
  - apply c_str_no_nul, generate_salt_avoids. by apply (bool_decide_unpack _).
Qed.

Lemma generate_salt_in_login_line_witness :
  FromString ("carol" +:+ ":" +:+ "x" +:+ ":"
                +:+ generate_salt 64 1700000000 (λ i, Z.of_nat i * 12345 + 777)
                +:+ ":" +:+ "0")
  = Some {| username := "carol"; hash := "x";
            salt := generate_salt 64 1700000000 (λ i, Z.of_nat i * 12345 + 777);
            type := VIEWER |}.
Proof.
  refine (proj1 (generate_salt_in_login_line 64 1700000000
                   (λ i, Z.of_nat i * 12345 + 777) "carol" "x" VIEWER _ _)).
  all: cbn; intros Hin; repeat (apply elem_of_cons in Hin as [[=]|Hin]);
       by apply elem_of_nil in Hin.
Defined.

Lemma divide_mod_pow2 d a m :
  0 < m → (d | a) → (d | m) → (d | a mod m).
Proof.
  intros Hm Ha Hdm. rewrite Z.mod_eq by lia.
  apply Z.divide_sub_r; [done|]. by apply Z.divide_mul_l.
Qed.

Lemma wrap_int_divide d z : (d | z) → (d | 2 ^ 32) → (d | wrap_int z).
Proof.
  intros Hz Hd. unfold wrap_int.
  assert (d | z mod 2 ^ 32) as Hm by (by apply divide_mod_pow2).
  destruct (_ <? _); [done|]. by apply Z.divide_sub_r.
Qed.

Lemma pow2_divide a b : 0 ≤ a ≤ b → (2 ^ a | 2 ^ b).
Proof.
  intros Hab. exists (2 ^ (b - a)). rewrite <- Z.pow_add_r by lia.
  f_equal. lia.
Qed.

Lemma string_get_app_prefix c s n :
  String.get (S n) (String c s) = String.get n s.
Proof. reflexivity. Qed.

(** X12. The first two of the 16 characters come from the clock alone:
    they are [VALID_CHARS] at the clock value's bits 0-5 and 6-11, whatever
    [rand()] returns.  ([unsigned long] has at least 12 bits.) *)
Theorem generate_salt_first_two_by_clock bits now rand :
  12 ≤ bits →
  String.get 5 (generate_salt bits now rand) = Some (valid_char (now mod 64))
  ∧ String.get 6 (generate_salt bits now rand)
    = Some (valid_char ((now / 64) mod 64)).
Proof.
  intros Hbits. unfold generate_salt, SALT_LENGTH.
  change ("@S@X@" +:+ ?x)
    with (String "@" (String "S" (String "@" (String "X" (String "@" x))))).
  rewrite !string_get_app_prefix. cbn [salt_loop].
  set (t0 := now mod 2 ^ bits).
  assert (0 < 2 ^ bits) as Hpos by (apply Z.pow_pos_nonneg; lia).
  assert (t0 mod 4096 = now mod 4096) as Ht0.
  { unfold t0. apply Z.mod_mod_divide, (pow2_divide 12 bits). lia. }
  split.
  - cbn [String.get]. f_equal. f_equal. rewrite land_63.
    unfold t0. apply Z.mod_mod_divide, (pow2_divide 6 bits). lia.
  - rewrite string_get_app_prefix. cbn [String.get]. f_equal. f_equal.
    rewrite Z.land_lor_distr_l, !land_63.
    assert ((wrap_int (Z.shiftl (rand 0%nat) 10) mod 2 ^ bits) mod 64 = 0) as ->.
    { apply Z.mod_divide; [lia|].
      apply Z.divide_trans with 1024; [by exists 16|].
      apply divide_mod_pow2; [done| |apply (pow2_divide 10 bits); lia].
      apply wrap_int_divide; [|apply (pow2_divide 10 32); lia].
      rewrite Z.shiftl_mul_pow2 by lia. apply Z.divide_mul_r, Z.divide_refl. }
    rewrite Z.lor_0_r, Z.shiftr_div_pow2 by lia.
    change (2 ^ 6) with 64.
    assert (∀ x, (x / 64) mod 64 = (x mod 4096) / 64) as Hmid.
    { intros x. Z.div_mod_to_equations. lia. }
    by rewrite (Hmid t0), (Hmid now), Ht0.
Qed.

Lemma generate_salt_first_two_by_clock_witness :
  String.get 5 (generate_salt 64 1700000000 (λ _, 0))
  = String.get 5 (generate_salt 64 1700000000 (λ i, Z.of_nat i * 12345 + 777))
  ∧ String.get 6 (generate_salt 64 1700000000 (λ _, 0))
    = String.get 6 (generate_salt 64 1700000000 (λ i, Z.of_nat i * 12345 + 777)).
Proof.
  destruct (generate_salt_first_two_by_clock 64 1700000000 (λ _, 0))
    as [A1 A2]; [lia|].
  destruct (generate_salt_first_two_by_clock 64 1700000000
              (λ i, Z.of_nat i * 12345 + 777)) as [B1 B2]; [lia|].
  split; [exact (eq_trans A1 (eq_sym B1)) | exact (eq_trans A2 (eq_sym B2))].
Defined.

(** * Further properties: process control *)

(** ** Directory names and PIDs *)

Lemma pretty_N_char_digit y :
  (y < 10)%N →
  isdigit (pretty_N_char y) = true ∧ digit_value (pretty_N_char y) = Z.of_N y.
Proof.
  intros Hy.
  assert (y = 0 ∨ y = 1 ∨ y = 2 ∨ y = 3 ∨ y = 4 ∨ y = 5 ∨ y = 6 ∨ y = 7
          ∨ y = 8 ∨ y = 9)%N as Hcases by lia.
  repeat (destruct Hcases as [->|Hcases]; [by vm_compute|]).
  subst. by vm_compute.
Qed.

Lemma digits_value_pretty_N_go x :
  ∃ k, 0 ≤ k ∧ ∀ s acc,
    digits_value acc (pretty_N_go x s)
    = digits_value (acc * 10 ^ k + Z.of_N x) s.
Proof.
  induction (N.lt_wf_0 x) as [x _ IH].
  destruct (decide (x = 0%N)) as [->|Hx].
  - exists 0. split; [lia|]. intros s acc. rewrite pretty_N_go_0.
    f_equal. lia.
  - destruct (IH (x `div` 10)%N) as (k & Hk & Hrec).
    { apply N.div_lt; lia. }
    exists (k + 1). split; [lia|]. intros s acc.
    rewrite pretty_N_go_step by lia. rewrite Hrec. cbn [digits_value].
    destruct (pretty_N_char_digit (x `mod` 10)%N) as [-> ->].
    { apply N.mod_lt. lia. }
    f_equal. rewrite Z.pow_add_r by lia.
    pose proof (N.div_mod x 10 ltac:(lia)) as Hdm.
    apply (f_equal Z.of_N) in Hdm. rewrite N2Z.inj_add, N2Z.inj_mul in Hdm.
    lia.
Qed.

Lemma pretty_N_go_head x s :
  (0 < x)%N → starts_with_digit (pretty_N_go x s) = true.
Proof.
  revert s. induction (N.lt_wf_0 x) as [x _ IH]. intros s Hx.
  rewrite pretty_N_go_step by done.
  destruct (decide (x `div` 10 = 0)%N) as [->|Hq].
  - rewrite pretty_N_go_0. cbn.
    apply pretty_N_char_digit, N.mod_lt. lia.
  - apply IH.
    + apply N.div_lt; lia.
    + apply N.neq_0_lt_0. exact Hq.
Qed.

Lemma pretty_positive_digits (p : positive) :
  starts_with_digit (pretty (Zpos p)) = true
  ∧ digits_value 0 (pretty (Zpos p)) = Zpos p.
Proof.
  assert (pretty (Zpos p) = pretty_N_go (Npos p) "") as ->.
  { unfold pretty, pretty_Z, pretty, pretty_positive, pretty, pretty_N.
    by rewrite decide_False by done. }
  split.
  - by apply pretty_N_go_head.
  - destruct (digits_value_pretty_N_go (Npos p)) as (k & _ & ->). cbn. lia.
Qed.

Lemma stoi_of_pretty_nonneg n :
  0 ≤ n ≤ INT_MAX → stoi (pretty n) = inr n.
Proof.
  intros Hn. destruct n as [|p|p]; [reflexivity| |lia].
  destruct (pretty_positive_digits p) as [Hd Hv].
  rewrite (stoi_starts_with_digit _ Hd), Hv.
  by rewrite (proj2 (Z.leb_le _ _)) by lia.
Qed.

(** X13. Round trip between PIDs and directory names: for every [int]
    [n], [std::stoi] of the decimal text that [operator<<] writes for [n] is
    [n] again. *)
Theorem stoi_pretty n :
  INT_MIN ≤ n ≤ INT_MAX → stoi (pretty n) = inr n.
Proof.
  intros Hn. destruct n as [|p|p].
  - reflexivity.
  - apply stoi_of_pretty_nonneg. lia.
  - destruct (pretty_positive_digits p) as [Hd Hv].
    change (pretty (Zneg p)) with (String "-" (pretty (Zpos p))).
    unfold stoi. cbn [skip_space]. change (isspace "-") with false. cbv iota.
    destruct (pretty (Zpos p)) as [|c r] eqn:Hp; [discriminate|].
    cbn [starts_with_digit] in Hd. rewrite Hd, Hv.
    assert ((INT_MIN <=? - Zpos p) && (- Zpos p <=? INT_MAX) = true) as ->.
    { apply andb_true_iff. split; apply Z.leb_le; lia. }
    reflexivity.
Qed.

Lemma stoi_pretty_witness :
  stoi (pretty (-2147483648)) = inr (-2147483648).
Proof. apply (stoi_pretty (-2147483648)). vm_compute. split; discriminate. Defined.

Lemma pretty_nonneg_starts_with_digit n :
  0 ≤ n → starts_with_digit (pretty n) = true.
Proof.
  destruct n as [|p|p]; [done| |lia]. intros _.
  apply pretty_positive_digits.
Qed.

(** ** The scan of the process table *)

Lemma getParentPid_Some_declared plat sys w c parent :
  result (getParentPid plat sys w c) = Some parent →
  plat = QNXNTO ∧ declared_parent sys w c = Some parent.
Proof.
  destruct plat; [|discriminate]. unfold declared_parent.
  destruct (read_info sys w c) as [pinfo|] eqn:Hinfo.
  - rewrite (getParentPid_info _ _ _ _ Hinfo). by intros [= <-].
  - by rewrite (getParentPid_no_info _ _ _ Hinfo).
Qed.

(** X14. Every PID that [getChildProcesses(pid)] returns is backed by a
    record: the build is the QNX one and the info record of that PID, read
    in full, names [pid] as its parent.  This holds also when the scan ends
    early on an error. *)
Theorem getChildProcesses_returns_children plat sys w pid c :
  c ∈ result (getChildProcesses plat sys w pid) →
  plat = QNXNTO
  ∧ declared_parent sys w c = Some pid
  ∧ result (getParentPid plat sys w c) = Some pid.
Proof.
  intros Hin.
  destruct (getChildProcesses_sound sys w plat pid) as [Hc _].
  destruct (Hc c Hin) as (entries & entry & _ & _ & Hchild).
  apply child_of_candidate in Hchild as [_ Hparent].
  destruct (getParentPid_Some_declared _ _ _ _ _ Hparent) as [-> Hdecl].
  done.
Qed.

Lemma getChildProcesses_returns_children_witness :
  declared_parent example_sys table_world 102 = Some 100.
Proof.
  refine (proj1 (proj2 (getChildProcesses_returns_children
                          QNXNTO example_sys table_world 100 102 _))).
  vm_compute. right. left.
Defined.

(** X15. No child is missed when nothing goes wrong: on the QNX build, if
    [/proc] can be listed and no status query throws, then every process
    [c] (a non-negative [int]) listed as a directory under its decimal name
    whose info record names [pid] as parent is among the PIDs returned. *)
Theorem getChildProcesses_finds_children sys w pid entries c :
  proc_listing w = inr entries →
  (∀ entry msg, entry ∈ entries → entry_status entry ≠ status_error msg) →
  0 ≤ c ≤ INT_MAX →
  dir (pretty c) ∈ entries →
  declared_parent sys w c = Some pid →
  c ∈ result (getChildProcesses QNXNTO sys w pid).
Proof.
  intros Hls Hok Hc Hin Hparent.
  rewrite (getChildProcesses_ok _ _ _ _ Hls Hok). cbn [result snd].
  apply list_elem_of_omap. exists (dir (pretty c)). split; [done|].
  rewrite (child_of_declared sys w pid (pretty c) c pid).
  - by rewrite bool_decide_eq_true_2.
  - apply pretty_nonneg_starts_with_digit. lia.
  - by apply stoi_of_pretty_nonneg.
  - done.
Qed.

Lemma getChildProcesses_finds_children_witness :
  102 ∈ result (getChildProcesses QNXNTO example_sys table_world 100).
Proof.
  apply (getChildProcesses_finds_children example_sys table_world 100
           table_entries 102).
  - reflexivity.
  - intros entry msg Hin. unfold table_entries in Hin.
    repeat (apply elem_of_cons in Hin as [->|Hin]; [discriminate|]).
    by apply elem_of_nil in Hin.
  - vm_compute. split; discriminate.
  - vm_compute. right. right. left.
  - vm_compute. reflexivity.
Defined.

Lemma for_each_scan_abort sys w pid before bad after msg children :
  (∀ entry msg', entry ∈ before → entry_status entry ≠ status_error msg') →
  entry_status bad = status_error msg →
  for_each (before ++ bad :: after) (scan_entry QNXNTO sys w pid) children
  = (before ≫= entry_trace sys w QNXNTO,
     (children ++ omap (child_of sys w QNXNTO pid) before,
      Some (filesystem_error msg))).
Proof.
  intros Hok Hbad. revert children.
  induction before as [|entry before IH]; intros children; cbn [app for_each].
  - unfold seq. rewrite (scan_entry_throws _ _ _ _ _ _ _ Hbad). cbn.
    by rewrite app_nil_r.
  - unfold seq. rewrite scan_entry_ok by (intros msg'; apply Hok; left).
    rewrite IH by (intros e msg' He; apply Hok; by right).
    cbn. destruct (child_of sys w QNXNTO pid entry); cbn;
      by rewrite <- ?app_assoc.
Qed.

(** X16. A status query that throws ends the scan: when the entry [bad]
    of [/proc] makes [is_directory] throw, [getChildProcesses] returns what
    it found among the entries before [bad], reports the error once, and
    never looks at the entries after it. *)
Theorem getChildProcesses_stops_at_error sys w pid before bad after msg :
  proc_listing w = inr (before ++ bad :: after) →
  (∀ entry msg', entry ∈ before → entry_status entry ≠ status_error msg') →
  entry_status bad = status_error msg →
  result (getChildProcesses QNXNTO sys w pid)
  = result (getChildProcesses QNXNTO sys (with_listing w before) pid)
  ∧ trace (getChildProcesses QNXNTO sys w pid)
    = trace (getChildProcesses QNXNTO sys (with_listing w before) pid)
        ++ [EvStderr (child_processes_error (filesystem_error msg))].
Proof.
  intros Hls Hok Hbad.
  rewrite (getChildProcesses_ok sys (with_listing w before) pid before eq_refl Hok).
  unfold getChildProcesses, try_catch. rewrite Hls.
  rewrite (for_each_scan_abort _ _ _ _ _ _ _ _ Hok Hbad). cbn.
  split; reflexivity.
Qed.

Lemma getChildProcesses_stops_at_error_witness :
  result (getChildProcesses QNXNTO example_sys broken_world 100)
  = result (getChildProcesses QNXNTO example_sys
              (with_listing broken_world [dir "101"]) 100)
  ∧ trace (getChildProcesses QNXNTO example_sys broken_world 100)
    = trace (getChildProcesses QNXNTO example_sys
               (with_listing broken_world [dir "101"]) 100)
        ++ [EvStderr (child_processes_error (filesystem_error "Permission denied"))].
Proof.
  apply (getChildProcesses_stops_at_error example_sys broken_world 100
           [dir "101"]
           {| filename := "102"; entry_status := status_error "Permission denied" |}
           [dir "102"] "Permission denied").
  - reflexivity.
  - intros entry msg' ->%list_elem_of_singleton. discriminate.
  - reflexivity.
Defined.

(** ** Process information and the existence probe *)



(** X18. [exists(pid)] and [sendSignal(pid, 0)] are the same probe: they
    make the same single kernel call and give the same answer; they differ
    only in that [exists] writes nothing to [std::cerr] when the answer is
    no. *)
Theorem exists_is_signal_zero w pid :
  result (exists_ w pid) = result (sendSignal w pid 0)
  ∧ trace (exists_ w pid) = [EvSignal pid 0]
  ∧ (∃ diagnostics,
       trace (sendSignal w pid 0) = EvSignal pid 0 :: diagnostics
       ∧ (∀ ev, ev ∈ diagnostics → ∃ line, ev = EvStderr line)
       ∧ (diagnostics = [] ↔ result (sendSignal w pid 0) = true)).
Proof.
  rewrite exists_eq. unfold sendSignal. unfold_io.
  destruct (kernel_kill w pid 0) as [reason|]; cbn.
  - repeat split. eexists. split; [reflexivity|]. split.
    + intros ev ->%list_elem_of_singleton. by eexists.
    + split; discriminate.
  - repeat split. exists []. split; [reflexivity|]. split.
    + intros ev []%elem_of_nil.
    + done.
Qed.

(** ** An unreadable command line *)

(** X19. [getCommandLine] gives the empty string both for a cmdline record
    that cannot be opened and for one whose first line is empty; the two
    calls leave the same trace, so the caller cannot tell them apart. *)
Theorem getCommandLine_unreadable_or_empty w w' pid content :
  fs w !! proc_path pid "cmdline" = None →
  fs w' !! proc_path pid "cmdline" = Some content →
  first_line content = "" →
  getCommandLine w pid = ([EvOpen (proc_path pid "cmdline")], "")
  ∧ getCommandLine w' pid = getCommandLine w pid.
Proof.
  intros Hnone Hsome Hempty.
  rewrite (getCommandLine_eq _ _ _ Hsome), Hempty.
  unfold getCommandLine. unfold_io. rewrite Hnone. done.
Qed.

Lemma getCommandLine_unreadable_or_empty_witness :
  getCommandLine table_world 7 = ([EvOpen (proc_path 7 "cmdline")], "")
  ∧ getCommandLine blank_world 7 = getCommandLine table_world 7.
Proof.
  apply (getCommandLine_unreadable_or_empty table_world blank_world 7
           (String LF "ignored")).
  - vm_compute. reflexivity.
  - vm_compute. reflexivity.
  - reflexivity.
Defined.

(** ** A result without repetitions *)

Lemma NoDup_omap_strong {A B} (f : A → option B) (l : list A) :
  (∀ x y z, x ∈ l → y ∈ l → f x = Some z → f y = Some z → x = y) →
  NoDup l → NoDup (omap f l).
Proof.
  intros Hinj Hnd. induction Hnd as [|x l Hx Hnd IH]; cbn; [constructor|].
  assert (NoDup (omap f l)) as IH'.
  { apply IH. intros a b z Ha Hb. apply Hinj; by right. }
  destruct (f x) as [z|] eqn:Hfx; [|done].
  constructor; [|done].
  intros (y & Hy & Hfy)%list_elem_of_omap.
  assert (x = y) as -> by (apply (Hinj x y z); [left|by right|done..]).
  done.
Qed.

(** X20. No PID is returned twice when [/proc] is as the kernel presents
    it: on the QNX build, if the listing has no entry twice, no status query
    throws, and every directory whose name begins with a digit is named by
    the decimal text of a non-negative [int], then the PIDs that
    [getChildProcesses] returns are pairwise different. *)
Theorem getChildProcesses_no_duplicates sys w pid entries :
  proc_listing w = inr entries →
  (∀ entry msg, entry ∈ entries → entry_status entry ≠ status_error msg) →
  NoDup entries →
  (∀ entry, entry ∈ entries → entry_status entry = is_dir →
            starts_with_digit (filename entry) = true →
            ∃ n, 0 ≤ n ≤ INT_MAX ∧ filename entry = pretty n) →
  NoDup (result (getChildProcesses QNXNTO sys w pid)).
Proof.
  intros Hls Hok Hnd Hnames.
  rewrite (getChildProcesses_ok _ _ _ _ Hls Hok). cbn [result snd].
  apply NoDup_omap_strong; [|done].
  intros e1 e2 c H1 H2 [(Hd1 & Hs1 & Hp1) _]%child_of_candidate
                       [(Hd2 & Hs2 & Hp2) _]%child_of_candidate.
  destruct (Hnames e1 H1 Hd1 Hs1) as (n1 & Hn1 & Hf1).
  destruct (Hnames e2 H2 Hd2 Hs2) as (n2 & Hn2 & Hf2).
  rewrite Hf1, stoi_of_pretty_nonneg in Hp1 by done.
  rewrite Hf2, stoi_of_pretty_nonneg in Hp2 by done.
  destruct e1 as [f1 s1], e2 as [f2 s2]. cbn in *. congruence.
Qed.

Lemma getChildProcesses_no_duplicates_witness :
  NoDup (result (getChildProcesses QNXNTO example_sys table_world 100)).
Proof.
  apply (getChildProcesses_no_duplicates example_sys table_world 100
           table_entries).
  - reflexivity.
  - intros entry msg Hin. unfold table_entries in Hin.
    repeat (apply elem_of_cons in Hin as [->|Hin]; [discriminate|]).
    by apply elem_of_nil in Hin.
  - unfold table_entries.
    repeat (apply NoDup_cons; split;
            [intros Hin; repeat (apply elem_of_cons in Hin as [[=]|Hin]);
             by apply elem_of_nil in Hin|]).
    apply NoDup_nil_2.
  - intros entry Hin _ _. unfold table_entries in Hin.
    apply elem_of_cons in Hin as [->|Hin]; [exists 100; by vm_compute|].
    apply elem_of_cons in Hin as [->|Hin]; [exists 101; by vm_compute|].
    apply elem_of_cons in Hin as [->|Hin]; [exists 102; by vm_compute|].
    apply elem_of_cons in Hin as [->|Hin]; [exists 103; by vm_compute|].
    by apply elem_of_nil in Hin.
Defined.
